(** * rdb: a resource-safe access layer over an embedded SQL engine

    Shallow embedding of [src/include/rdb.h] (classes [Database],
    [Database::Transaction] and [Statement]) and the properties of its
    transaction scope, parameter binding, cursor protocol and row mapping.

    The native engine (the [sqlite3_*] C functions) is not part of the
    repository.  It is taken as a parameter: a record [Engine] of the API
    functions the header calls, acting on an abstract engine state.  A small
    executable engine, [Mini], instantiates the record; it is used to run
    the scenarios and to exhibit concrete executions. *)

From Stdlib Require Import ZArith List String Bool Lia Floats.
Import ListNotations.
Local Open Scope string_scope.
Local Open Scope Z_scope.

Set Implicit Arguments.

(* ------------------------------------------------------------------ *)
(** * Result codes of the engine *)

Definition SQLITE_OK : Z := 0.
Definition SQLITE_ERROR : Z := 1.
Definition SQLITE_BUSY : Z := 5.
Definition SQLITE_CONSTRAINT : Z := 19.
Definition SQLITE_MISMATCH : Z := 20.
Definition SQLITE_MISUSE : Z := 21.
Definition SQLITE_RANGE : Z := 25.
Definition SQLITE_ROW : Z := 100.
Definition SQLITE_DONE : Z := 101.

(** C++ [int] and [double].  The header performs no arithmetic on them: they
    are only handed to and received from the engine, so an [int] is carried
    as a [Z] and a [double] as a primitive float. *)
Definition int := Z.
Definition double := float.

(* ------------------------------------------------------------------ *)
(** * Exceptions, outcomes and the state monad of the wrapper *)

(** [class SQLiteException : public std::runtime_error] *)
Record SQLiteException := mkSQLiteException { what : string }.

(** How a call ends: it returns a value, it leaves by an exception, or the
    process is ended by [std::terminate] (an exception that tries to leave a
    [noexcept] function, such as a destructor). *)
Inductive outcome (A : Type) : Type :=
| Ok (a : A)
| Throw (e : SQLiteException)
| Terminate.
Arguments Ok {A} a.
Arguments Throw {A} e.
Arguments Terminate {A}.

(** A computation over a state [S].  [None] is reserved for the loops, which
    carry a fuel argument: it means the fuel ran out, never a behaviour of
    the program. *)
Definition M (S A : Type) : Type := S -> option (outcome A * S).

Definition ret {S A} (a : A) : M S A := fun s => Some (Ok a, s).
Definition throw {S A} (e : SQLiteException) : M S A := fun s => Some (Throw e, s).
Definition mbind {S A B} (m : M S A) (k : A -> M S B) : M S B :=
  fun s =>
    match m s with
    | None => None
    | Some (Ok a, s') => k a s'
    | Some (Throw e, s') => Some (Throw e, s')
    | Some (Terminate, s') => Some (Terminate, s')
    end.

Declare Scope rdb_scope.
Delimit Scope rdb_scope with rdb.
Notation "x <- m ;; k" := (mbind m (fun x => k))
  (at level 61, m at next level, right associativity) : rdb_scope.
Notation "m ;; k" := (mbind m (fun _ => k))
  (at level 61, right associativity) : rdb_scope.
Local Open Scope rdb_scope.

(** An exception that reaches the boundary of a [noexcept] function calls
    [std::terminate]. *)
Definition noexcept {S A} (m : M S A) : M S A :=
  fun s =>
    match m s with
    | Some (Throw _, s') => Some (Terminate, s')
    | r => r
    end.

(** Run a computation that knows the caller memory [U] inside a larger
    memory [V * U]. *)
Definition frame {V U W A} (m : M (U * W) A) : M ((V * U) * W) A :=
  fun s =>
    match m (snd (fst s), snd s) with
    | None => None
    | Some (r, (u', w')) => Some (r, ((fst (fst s), u'), w'))
    end.

Definition get_local {L W} : M (L * W) L := fun s => Some (Ok (fst s), s).
Definition put_local {L W} (l : L) : M (L * W) unit :=
  fun s => Some (Ok tt, (l, snd s)).

(* ------------------------------------------------------------------ *)
(** * The engine interface *)

(** The cursor of a compiled statement, as the specification names it. *)
Inductive CursorState := Ready | HasRow | Exhausted.

(** A value bound to a parameter or stored in a column. *)
Inductive value :=
| VNull
| VInt (z : Z)
| VReal (d : double)
| VText (s : string).

(** The functions of the native engine that [rdb.h] calls.  [world] is the
    state of the engine library (connections, their contents, compiled
    statements); [sqlite3] and [sqlite3_stmt] are the two handle types.
    A function that may change the engine state returns the new state.
    The column accessors and the name lookup read the state only.

    The last four fields are not API functions: they are the views of the
    engine state in which the specification speaks (cursor state, bound
    parameter set, database content, content saved by an open
    transaction).  Nothing in the wrapper calls them. *)
Record Engine : Type := {
  world : Type;
  sqlite3 : Type;
  sqlite3_stmt : Type;
  content : Type;

  sqlite3_exec : sqlite3 -> string -> world -> (Z * option string) * world;
  sqlite3_prepare_v2 : sqlite3 -> string -> world -> (Z * sqlite3_stmt) * world;
  sqlite3_errmsg : sqlite3 -> world -> string;
  sqlite3_db_handle : sqlite3_stmt -> world -> sqlite3;

  sqlite3_bind_int : sqlite3_stmt -> int -> int -> world -> Z * world;
  sqlite3_bind_double : sqlite3_stmt -> int -> double -> world -> Z * world;
  sqlite3_bind_text : sqlite3_stmt -> int -> string -> world -> Z * world;
  sqlite3_bind_parameter_index : sqlite3_stmt -> string -> world -> int;

  sqlite3_step : sqlite3_stmt -> world -> Z * world;
  sqlite3_reset : sqlite3_stmt -> world -> Z * world;

  sqlite3_column_int : sqlite3_stmt -> int -> world -> int;
  sqlite3_column_double : sqlite3_stmt -> int -> world -> double;
  sqlite3_column_text : sqlite3_stmt -> int -> world -> option string;

  cursor_of : sqlite3_stmt -> world -> CursorState;
  bound_of : sqlite3_stmt -> world -> list value;
  content_of : sqlite3 -> world -> content;
  pending_of : sqlite3 -> world -> option content
}.

(* ------------------------------------------------------------------ *)
(** * The wrapper classes of rdb.h *)

Section Rdb.

Variable E : Engine.

(** Lift an engine call to the monad, on the engine component of the state. *)
Definition call {L A} (f : world E -> A * world E) : M (L * world E) A :=
  fun s => let '(a, w') := f (snd s) in Some (Ok a, (fst s, w')).

Definition peek {L A} (f : world E -> A) : M (L * world E) A :=
  fun s => Some (Ok (f (snd s)), s).

(** ** class Database *)

Record Database := mkDatabase { db_ : sqlite3 E }.

(** [void execute(const std::string& sql)] *)
Definition Database_execute {L} (this : Database) (sql : string)
  : M (L * world E) unit :=
  r <- call (sqlite3_exec E (db_ this) sql) ;;
  let '(rc, errmsg) := r in
  if negb (rc =? SQLITE_OK) then
    let msg := match errmsg with Some m => m | None => "Unknown error" end in
    throw (mkSQLiteException msg)
  else ret tt.

(** ** class Statement *)

Record Statement := mkStatement { stmt_ : sqlite3_stmt E }.

(** [Statement(sqlite3* db, const std::string& sql)] *)
Definition Statement_ctor {L} (db : sqlite3 E) (sql : string)
  : M (L * world E) Statement :=
  r <- call (sqlite3_prepare_v2 E db sql) ;;
  let '(rc, st) := r in
  if negb (rc =? SQLITE_OK) then
    msg <- peek (sqlite3_errmsg E db) ;;
    throw (mkSQLiteException msg)
  else ret (mkStatement st).

(** [std::unique_ptr<Statement> Database::prepare(const std::string& sql)] *)
Definition Database_prepare {L} (this : Database) (sql : string)
  : M (L * world E) Statement :=
  Statement_ctor (db_ this) sql.

(** Positional binding.  The three overloads of [bind(int index, ...)] are
    told apart by a suffix; the value the engine's function returns is not
    looked at.

    [void bind(int index, int val) { sqlite3_bind_int(stmt_, index, val); }] *)
Definition bind_int {L} (this : Statement) (index : int) (val : int)
  : M (L * world E) unit :=
  _ <- call (sqlite3_bind_int E (stmt_ this) index val) ;; ret tt.

(** [void bind(int index, double val)] *)
Definition bind_double {L} (this : Statement) (index : int) (val : double)
  : M (L * world E) unit :=
  _ <- call (sqlite3_bind_double E (stmt_ this) index val) ;; ret tt.

(** [void bind(int index, const std::string& val)] *)
Definition bind_text {L} (this : Statement) (index : int) (val : string)
  : M (L * world E) unit :=
  _ <- call (sqlite3_bind_text E (stmt_ this) index val) ;; ret tt.

(** Named binding: the name is looked up, and the value is bound when
    the index found is not 0.

    [void bind(const std::string& name, int val)] *)
Definition bind_name_int {L} (this : Statement) (name : string) (val : int)
  : M (L * world E) unit :=
  idx <- peek (sqlite3_bind_parameter_index E (stmt_ this) name) ;;
  if negb (idx =? 0)
  then _ <- call (sqlite3_bind_int E (stmt_ this) idx val) ;; ret tt
  else ret tt.

(** [void bind(const std::string& name, double val)] *)
Definition bind_name_double {L} (this : Statement) (name : string) (val : double)
  : M (L * world E) unit :=
  idx <- peek (sqlite3_bind_parameter_index E (stmt_ this) name) ;;
  if negb (idx =? 0)
  then _ <- call (sqlite3_bind_double E (stmt_ this) idx val) ;; ret tt
  else ret tt.

(** [void bind(const std::string& name, const std::string& val)] *)
Definition bind_name_text {L} (this : Statement) (name : string) (val : string)
  : M (L * world E) unit :=
  idx <- peek (sqlite3_bind_parameter_index E (stmt_ this) name) ;;
  if negb (idx =? 0)
  then _ <- call (sqlite3_bind_text E (stmt_ this) idx val) ;; ret tt
  else ret tt.

(** [bool step()] *)
Definition step {L} (this : Statement) : M (L * world E) bool :=
  rc <- call (sqlite3_step E (stmt_ this)) ;;
  if rc =? SQLITE_ROW then ret true
  else if rc =? SQLITE_DONE then ret false
  else
    db <- peek (sqlite3_db_handle E (stmt_ this)) ;;
    msg <- peek (sqlite3_errmsg E db) ;;
    throw (mkSQLiteException msg).

(** [void reset()] *)
Definition reset {L} (this : Statement) : M (L * world E) unit :=
  _ <- call (sqlite3_reset E (stmt_ this)) ;; ret tt.

(** [int getInt(int col)] and [double getDouble(int col)] *)
Definition getInt {L} (this : Statement) (col : int) : M (L * world E) int :=
  peek (sqlite3_column_int E (stmt_ this) col).

Definition getDouble {L} (this : Statement) (col : int) : M (L * world E) double :=
  peek (sqlite3_column_double E (stmt_ this) col).

(** [std::string getText(int col)]: the engine's pointer when it is not
    null, the empty string when it is. *)
Definition getText {L} (this : Statement) (col : int) : M (L * world E) string :=
  txt <- peek (sqlite3_column_text E (stmt_ this) col) ;;
  ret (match txt with Some t => t | None => "" end).

(** [while(step()) fn( *this );] with a bound on the number of iterations. *)
Fixpoint forEachRow_loop {L} (fuel : nat) (this : Statement)
    (fn : Statement -> M (L * world E) unit) : M (L * world E) unit :=
  match fuel with
  | O => fun _ => None
  | S fuel' =>
      more <- step this ;;
      if more : bool
      then fn this ;; forEachRow_loop fuel' this fn
      else ret tt
  end.

(** [void forEachRow(const std::function<void(Statement&)>& fn)] *)
Definition forEachRow {L} (fuel : nat) (this : Statement)
    (fn : Statement -> M (L * world E) unit) : M (L * world E) unit :=
  forEachRow_loop fuel this fn ;;
  reset this.

(** The closure [[&](Statement& row){ results.push_back(mapper(row)); }]:
    its captured vector lives in front of the caller memory. *)
Definition push_mapped {U T} (mapper : Statement -> M (U * world E) T)
    (row : Statement) : M ((list T * U) * world E) unit :=
  t <- frame (mapper row) ;;
  st <- get_local ;;
  put_local ((fst st ++ [t])%list, snd st).

(** [template<typename T> std::vector<T> mapRows(std::function<T(Statement&)>)] *)
Definition mapRows {U T} (fuel : nat) (this : Statement)
    (mapper : Statement -> M (U * world E) T) : M (U * world E) (list T) :=
  fun s =>
    match forEachRow fuel this (push_mapped mapper) (([], fst s), snd s) with
    | None => None
    | Some (Ok _, ((results, u'), w')) => Some (Ok results, (u', w'))
    | Some (Throw e, ((_, u'), w')) => Some (Throw e, (u', w'))
    | Some (Terminate, ((_, u'), w')) => Some (Terminate, (u', w'))
    end.

(** The loop [while(step()) res.push_back(get(colIndex));] shared by the
    three specialisations of [column], with [res] as an accumulator. *)
Fixpoint column_loop {L T} (fuel : nat) (this : Statement)
    (get : Statement -> int -> M (L * world E) T) (colIndex : int)
    (res : list T) : M (L * world E) (list T) :=
  match fuel with
  | O => fun _ => None
  | S fuel' =>
      more <- step this ;;
      if more : bool
      then x <- get this colIndex ;;
           column_loop fuel' this get colIndex (res ++ [x])%list
      else ret res
  end.

(** [template<> std::vector<int> Statement::column<int>(int colIndex)] *)
Definition column_int {L} (fuel : nat) (this : Statement) (colIndex : int)
  : M (L * world E) (list int) :=
  res <- column_loop fuel this getInt colIndex [] ;;
  reset this ;;
  ret res.

(** [template<> std::vector<double> Statement::column<double>(int colIndex)] *)
Definition column_double {L} (fuel : nat) (this : Statement) (colIndex : int)
  : M (L * world E) (list double) :=
  res <- column_loop fuel this getDouble colIndex [] ;;
  reset this ;;
  ret res.

(** [template<> std::vector<std::string> Statement::column<std::string>(int)] *)
Definition column_text {L} (fuel : nat) (this : Statement) (colIndex : int)
  : M (L * world E) (list string) :=
  res <- column_loop fuel this getText colIndex [] ;;
  reset this ;;
  ret res.

(** ** class Database::Transaction

    The object is the caller memory of its member functions: the state of a
    member call is the pair of the [Transaction] and the engine state. *)

Record Transaction := mkTransaction { tx_db_ : Database; active_ : bool }.

(** [Transaction(Database& db) : db_(db) { db_.execute("BEGIN;"); }]
    The member [active_] starts as [true]; when [execute] throws, no object
    comes to exist. *)
Definition Transaction_ctor {L} (db : Database) : M (L * world E) Transaction :=
  Database_execute db "BEGIN;" ;;
  ret (mkTransaction db true).

(** [void commit() { db_.execute("COMMIT;"); active_ = false; }] *)
Definition Transaction_commit : M (Transaction * world E) unit :=
  this <- get_local ;;
  Database_execute (tx_db_ this) "COMMIT;" ;;
  put_local (mkTransaction (tx_db_ this) false).

(** [void rollback() { db_.execute("ROLLBACK;"); active_ = false; }] *)
Definition Transaction_rollback : M (Transaction * world E) unit :=
  this <- get_local ;;
  Database_execute (tx_db_ this) "ROLLBACK;" ;;
  put_local (mkTransaction (tx_db_ this) false).

(** The body of [~Transaction() { if(active_) db_.execute("ROLLBACK;"); }] *)
Definition Transaction_dtor_body : M (Transaction * world E) unit :=
  this <- get_local ;;
  if active_ this then Database_execute (tx_db_ this) "ROLLBACK;" else ret tt.

(** The destructor itself: a destructor is [noexcept] unless declared
    otherwise, and this one is not. *)
Definition Transaction_dtor : M (Transaction * world E) unit :=
  noexcept Transaction_dtor_body.

End Rdb.

Arguments mkDatabase {E} db_.
Arguments mkStatement {E} stmt_.
Arguments mkTransaction {E} tx_db_ active_.

(* ------------------------------------------------------------------ *)
(** * Mini: a small executable engine

    One open connection over one table [t(id INTEGER PRIMARY KEY, v)], kept
    in [id] order.  [Mini] understands the statements below and nothing
    else, keeps the bindings of a statement across [sqlite3_reset], refuses
    a bind on a statement that has been stepped and not reset, and saves the
    table at [BEGIN] to restore it at [ROLLBACK].  A column read at a type
    other than the stored one yields that type's default ([0], [0.0], the
    null pointer); a stored NULL read as text is the null pointer. *)

Module Mini.

Definition table := list (Z * value).

Inductive column_name := CId | CV.

Inductive program :=
| PInsert                            (* INSERT INTO t(v) VALUES(?1) *)
| PInsertBoth                        (* INSERT INTO t(id, v) VALUES(?1, ?2) *)
| PSelect (cols : list column_name)  (* SELECT cols FROM t ORDER BY id *)
| PCount.                            (* SELECT COUNT(id) FROM t *)

Record stmt := mkStmt {
  prog : program;
  names : list string;         (* parameter i+1 has name [nth i names] *)
  binds : list value;          (* parameter i+1 has value [nth i binds] *)
  cur : CursorState;
  current : list value;        (* the row under the cursor *)
  rows_left : list (list value)
}.

Record world := mkWorld {
  tbl : table;
  saved : option table;        (* the table as it was at BEGIN *)
  stmts : list stmt;           (* handle h is [nth (h-1) stmts]; 0 is NULL *)
  errmsg : string
}.

Definition empty : world := mkWorld [] None [] "not an error".

Definition set_err (m : string) (w : world) : world :=
  mkWorld (tbl w) (saved w) (stmts w) m.

(** ** Text helpers *)

Fixpoint strip_prefix (p s : string) : option string :=
  match p with
  | EmptyString => Some s
  | String a p' =>
      match s with
      | String b s' => if Ascii.eqb a b then strip_prefix p' s' else None
      | EmptyString => None
      end
  end.

Fixpoint rev_string (acc s : string) : string :=
  match s with
  | EmptyString => acc
  | String a s' => rev_string (String a acc) s'
  end.

Definition strip_suffix (p s : string) : option string :=
  match strip_prefix (rev_string "" p) (rev_string "" s) with
  | Some r => Some (rev_string "" r)
  | None => None
  end.

Definition drop_semicolon (s : string) : string :=
  match strip_suffix ";" s with Some r => r | None => s end.

(** ** The table *)

Fixpoint insert_row (r : Z * value) (t : table) : table :=
  match t with
  | [] => [r]
  | x :: t' => if fst r <? fst x then r :: t else x :: insert_row r t'
  end.

Definition next_id (t : table) : Z :=
  1 + fold_right (fun r m => Z.max (fst r) m) 0 t.

Definition has_id (z : Z) (t : table) : bool :=
  existsb (fun r => fst r =? z) t.

Definition project (cols : list column_name) (r : Z * value) : list value :=
  map (fun c => match c with CId => VInt (fst r) | CV => snd r end) cols.

(** ** sqlite3_exec

    [BEGIN] is refused inside a transaction, [COMMIT] and [ROLLBACK]
    outside of one; a query that still has a row under its cursor does not
    stand in the way of either. *)

Definition exec (_ : unit) (sql : string) (w : world)
  : (Z * option string) * world :=
  let fail m := ((SQLITE_ERROR, Some m), set_err m w) in
  if String.eqb sql "BEGIN;" then
    match saved w with
    | Some _ => fail "cannot start a transaction within a transaction"
    | None => ((SQLITE_OK, None), mkWorld (tbl w) (Some (tbl w)) (stmts w) (errmsg w))
    end
  else if String.eqb sql "COMMIT;" then
    match saved w with
    | Some _ => ((SQLITE_OK, None), mkWorld (tbl w) None (stmts w) (errmsg w))
    | None => fail "cannot commit - no transaction is active"
    end
  else if String.eqb sql "ROLLBACK;" then
    match saved w with
    | Some t0 => ((SQLITE_OK, None), mkWorld t0 None (stmts w) (errmsg w))
    | None => fail "cannot rollback - no transaction is active"
    end
  else if String.eqb sql "DELETE FROM t;" then
    ((SQLITE_OK, None), mkWorld [] (saved w) (stmts w) (errmsg w))
  else
    match strip_prefix "INSERT INTO t(v) VALUES('" sql with
    | Some rest =>
        match strip_suffix "');" rest with
        | Some lit =>
            ((SQLITE_OK, None),
             mkWorld (insert_row (next_id (tbl w), VText lit) (tbl w))
                     (saved w) (stmts w) (errmsg w))
        | None => fail "syntax error"
        end
    | None => fail "syntax error"
    end.

(** ** sqlite3_prepare_v2 *)

Definition compile (sql : string) : option (program * list string) :=
  let q := drop_semicolon sql in
  if String.eqb q "SELECT id, v FROM t ORDER BY id" then Some (PSelect [CId; CV], [])
  else if String.eqb q "SELECT id FROM t ORDER BY id" then Some (PSelect [CId], [])
  else if String.eqb q "SELECT v FROM t ORDER BY id" then Some (PSelect [CV], [])
  else if String.eqb q "SELECT COUNT(id) FROM t" then Some (PCount, [])
  else if String.eqb q "INSERT INTO t(id, v) VALUES(:id, :v)"
       then Some (PInsertBoth, [":id"; ":v"])
  else
    match strip_prefix "INSERT INTO t(v) VALUES(" q with
    | Some rest =>
        match strip_suffix ")" rest with
        | Some ph =>
            if String.eqb ph "?" then Some (PInsert, [""])
            else match strip_prefix ":" ph with
                 | Some _ => Some (PInsert, [ph])
                 | None => None
                 end
        | None => None
        end
    | None => None
    end.

Definition prepare (_ : unit) (sql : string) (w : world) : (Z * nat) * world :=
  match compile sql with
  | Some (p, ns) =>
      let s := mkStmt p ns (map (fun _ => VNull) ns) Ready [] [] in
      ((SQLITE_OK, S (List.length (stmts w))),
       mkWorld (tbl w) (saved w) (stmts w ++ [s])%list (errmsg w))
  | None => ((SQLITE_ERROR, O), set_err "syntax error" w)
  end.

(** ** Statements *)

Definition lookup (h : nat) (w : world) : option stmt :=
  match h with
  | O => None
  | S i => nth_error (stmts w) i
  end.

Fixpoint set_nth {A} (i : nat) (x : A) (l : list A) : list A :=
  match l, i with
  | [], _ => []
  | _ :: l', O => x :: l'
  | y :: l', S i' => y :: set_nth i' x l'
  end.

Definition store (h : nat) (s : stmt) (w : world) : world :=
  mkWorld (tbl w) (saved w) (set_nth (pred h) s (stmts w)) (errmsg w).

Definition misuse : string := "bad parameter or other API misuse".

(** Positional bind: parameters are numbered from 1. *)
Definition bind_value (h : nat) (index : Z) (v : value) (w : world) : Z * world :=
  match lookup h w with
  | None => (SQLITE_MISUSE, w)
  | Some s =>
      match cur s with
      | Ready =>
          if (1 <=? index) && (index <=? Z.of_nat (List.length (names s)))
          then (SQLITE_OK,
                store h (mkStmt (prog s) (names s)
                           (set_nth (Z.to_nat (index - 1)) v (binds s))
                           (cur s) (current s) (rows_left s)) w)
          else (SQLITE_RANGE, set_err "column index out of range" w)
      | _ => (SQLITE_MISUSE, set_err misuse w)
      end
  end.

Fixpoint index_of (name : string) (l : list string) (i : Z) : Z :=
  match l with
  | [] => 0
  | n :: l' => if String.eqb n name then i else index_of name l' (i + 1)
  end.

Definition parameter_index (h : nat) (name : string) (w : world) : Z :=
  match lookup h w with
  | None => 0
  | Some s => if String.eqb name "" then 0 else index_of name (names s) 1
  end.

(** Start a statement: run an insert at once, or compute the rows of a
    query. *)
Definition start (h : nat) (s : stmt) (w : world) : Z * world :=
  let finish s' w' := store h s' w' in
  let done := mkStmt (prog s) (names s) (binds s) Exhausted [] [] in
  let failed := mkStmt (prog s) (names s) (binds s) Ready [] [] in
  let serve rows :=
    match rows with
    | [] => (SQLITE_DONE, finish done w)
    | r :: rest =>
        (SQLITE_ROW,
         finish (mkStmt (prog s) (names s) (binds s) HasRow r rest) w)
    end in
  match prog s with
  | PInsert =>
      let w' := mkWorld (insert_row (next_id (tbl w), nth 0 (binds s) VNull) (tbl w))
                        (saved w) (stmts w) (errmsg w) in
      (SQLITE_DONE, finish done w')
  | PInsertBoth =>
      let add z :=
        if has_id z (tbl w)
        then (SQLITE_CONSTRAINT,
              finish failed (set_err "UNIQUE constraint failed: t.id" w))
        else (SQLITE_DONE,
              finish done (mkWorld (insert_row (z, nth 1 (binds s) VNull) (tbl w))
                                   (saved w) (stmts w) (errmsg w))) in
      match nth 0 (binds s) VNull with
      | VInt z => add z
      | VNull => add (next_id (tbl w))
      | _ => (SQLITE_MISMATCH, finish failed (set_err "datatype mismatch" w))
      end
  | PSelect cols => serve (map (project cols) (tbl w))
  | PCount => serve [[VInt (Z.of_nat (List.length (tbl w)))]]
  end.

(** [sqlite3_step]: a statement that ran to completion starts again, as
    one that was reset. *)
Definition step (h : nat) (w : world) : Z * world :=
  match lookup h w with
  | None => (SQLITE_MISUSE, w)
  | Some s =>
      match cur s with
      | HasRow =>
          match rows_left s with
          | [] => (SQLITE_DONE,
                   store h (mkStmt (prog s) (names s) (binds s) Exhausted [] []) w)
          | r :: rest =>
              (SQLITE_ROW,
               store h (mkStmt (prog s) (names s) (binds s) HasRow r rest) w)
          end
      | _ => start h s w
      end
  end.

Definition reset (h : nat) (w : world) : Z * world :=
  match lookup h w with
  | None => (SQLITE_OK, w)
  | Some s =>
      (SQLITE_OK, store h (mkStmt (prog s) (names s) (binds s) Ready [] []) w)
  end.

Definition column_value (h : nat) (col : Z) (w : world) : value :=
  match lookup h w with
  | None => VNull
  | Some s => if col <? 0 then VNull else nth (Z.to_nat col) (current s) VNull
  end.

Definition column_int (h : nat) (col : Z) (w : world) : Z :=
  match column_value h col w with VInt z => z | _ => 0 end.

Definition column_double (h : nat) (col : Z) (w : world) : double :=
  match column_value h col w with VReal d => d | _ => PrimFloat.zero end.

Definition column_text (h : nat) (col : Z) (w : world) : option string :=
  match column_value h col w with VText s => Some s | _ => None end.

Definition cursor (h : nat) (w : world) : CursorState :=
  match lookup h w with Some s => cur s | None => Ready end.

Definition bound (h : nat) (w : world) : list value :=
  match lookup h w with Some s => binds s | None => [] end.

End Mini.

Definition MiniEngine : Engine := {|
  world := Mini.world;
  sqlite3 := unit;
  sqlite3_stmt := nat;
  content := Mini.table;
  sqlite3_exec := Mini.exec;
  sqlite3_prepare_v2 := Mini.prepare;
  sqlite3_errmsg := fun _ w => Mini.errmsg w;
  sqlite3_db_handle := fun _ _ => tt;
  sqlite3_bind_int := fun h i v => Mini.bind_value h i (VInt v);
  sqlite3_bind_double := fun h i v => Mini.bind_value h i (VReal v);
  sqlite3_bind_text := fun h i v => Mini.bind_value h i (VText v);
  sqlite3_bind_parameter_index := Mini.parameter_index;
  sqlite3_step := Mini.step;
  sqlite3_reset := Mini.reset;
  sqlite3_column_int := Mini.column_int;
  sqlite3_column_double := Mini.column_double;
  sqlite3_column_text := Mini.column_text;
  cursor_of := Mini.cursor;
  bound_of := Mini.bound;
  content_of := fun _ w => Mini.tbl w;
  pending_of := fun _ w => Mini.saved w
|}.

(* ------------------------------------------------------------------ *)
(** * Vocabulary of the specification *)

(** What the specification assumes of the engine: [sqlite3_reset] rewinds
    the cursor and keeps the bindings; a successful [BEGIN] saves the
    content, and [ROLLBACK] in an open transaction succeeds and restores
    it. *)
Record EngineLaws (E : Engine) : Prop := {
  reset_cursor : forall st w,
    cursor_of E st (snd (sqlite3_reset E st w)) = Ready;
  reset_bound : forall st w,
    bound_of E st (snd (sqlite3_reset E st w)) = bound_of E st w;
  begin_saves : forall db w m w',
    sqlite3_exec E db "BEGIN;" w = ((SQLITE_OK, m), w') ->
    pending_of E db w' = Some (content_of E db w);
  rollback_restores : forall db w c,
    pending_of E db w = Some c ->
    exists m w',
      sqlite3_exec E db "ROLLBACK;" w = ((SQLITE_OK, m), w') /\
      content_of E db w' = c
}.

Section Vocabulary.

Variable E : Engine.

(** The text of the exception [execute] raises: [errmsg ? errmsg :
    "Unknown error"]. *)
Definition error_text (m : option string) : string :=
  match m with Some x => x | None => "Unknown error" end.

(** Stepping the statement from [w] yields exactly [n] rows and then the
    end of the result. *)
Fixpoint produces_rows (n : nat) (st : sqlite3_stmt E) (w : world E) : Prop :=
  match n with
  | O => fst (sqlite3_step E st w) = SQLITE_DONE
  | S n' =>
      fst (sqlite3_step E st w) = SQLITE_ROW /\
      produces_rows n' st (snd (sqlite3_step E st w))
  end.

(** A per-row callback that returns normally and leaves the engine as it
    found it (it reads columns; it may write the caller's memory). *)
Definition reads_only {U} (fn : Statement E -> M (U * world E) unit) : Prop :=
  forall row u w, exists u', fn row (u, w) = Some (Ok tt, (u', w)).

(** The callback [fn] with a counter of its invocations in front of the
    caller memory. *)
Definition counted {U} (fn : Statement E -> M (U * world E) unit)
    (row : Statement E) : M ((nat * U) * world E) unit :=
  st <- get_local ;;
  put_local (S (fst st), snd st) ;;
  frame (fn row).

(** What [mapRows] keeps of a run of [forEachRow] over its closure: the
    vector on a normal return, nothing of it otherwise. *)
Definition collect {U T}
    (r : option (outcome unit * ((list T * U) * world E)))
  : option (outcome (list T) * (U * world E)) :=
  match r with
  | None => None
  | Some (Ok _, ((results, u'), w')) => Some (Ok results, (u', w'))
  | Some (Throw e, ((_, u'), w')) => Some (Throw e, (u', w'))
  | Some (Terminate, ((_, u'), w')) => Some (Terminate, (u', w'))
  end.

(** The properties below are worded as the specification words them; each
    is compared with the code further down. *)

(** "for all valid SQL producing N rows, forEachRow invokes its callback
    exactly N times", whatever the callback and however the call ends. *)
Definition invokes_once_per_row : Prop :=
  forall U (fn : Statement E -> M (U * world E) unit)
         (this : Statement E) (u : U) (w : world E) (n fuel : nat) r c u' w',
    produces_rows n (stmt_ this) w ->
    forEachRow fuel this (counted fn) ((O, u), w) = Some (r, ((c, u'), w')) ->
    c = n.

(** "the cursor returns to Ready on every exit path" *)
Definition resets_on_every_exit : Prop :=
  forall U (fn : Statement E -> M (U * world E) unit)
         (this : Statement E) (s : U * world E) (fuel : nat) r s',
    forEachRow fuel this fn s = Some (r, s') ->
    cursor_of E (stmt_ this) (snd s') = Ready.

(** "a failure of the automatic rollback is swallowed": the destructor of
    a pending scope returns normally whatever the engine answers. *)
Definition swallows_rollback_failure : Prop :=
  forall (t : Transaction E) (w : world E),
    active_ t = true ->
    exists s', Transaction_dtor (t, w) = Some (Ok tt, s').

(** "after commit() or rollback() has been called, destruction issues no
    further SQL" *)
Definition silent_after_resolution_call : Prop :=
  forall (t : Transaction E) (w : world E) r s',
    (Transaction_commit (t, w) = Some (r, s') \/
     Transaction_rollback (t, w) = Some (r, s')) ->
    Transaction_dtor s' = Some (Ok tt, s').

End Vocabulary.

Arguments produces_rows {E} n st w.
Arguments reads_only {E U} fn.
Arguments counted {E U} fn row.
Arguments collect {E U T} r.

(* ------------------------------------------------------------------ *)
(** * Concrete executions on Mini *)

Module Run.

Definition db : Database MiniEngine := mkDatabase (E := MiniEngine) tt.

(** The table holds the rows "a" and "b"; statement 1 selects them. *)
Definition two_rows : Mini.world :=
  let w1 := snd (Mini.exec tt "INSERT INTO t(v) VALUES('a');" Mini.empty) in
  let w2 := snd (Mini.exec tt "INSERT INTO t(v) VALUES('b');" w1) in
  snd (Mini.prepare tt "SELECT id, v FROM t ORDER BY id" w2).

Definition q1 : Statement MiniEngine := mkStatement (E := MiniEngine) 1%nat.

(** ... and statement 1 has been stepped once. *)
Definition on_first_row : Mini.world := snd (Mini.step 1%nat two_rows).

(** The table holds three rows; statement 1 selects their ids. *)
Definition three_ids : Mini.world :=
  let w1 := snd (Mini.exec tt "INSERT INTO t(v) VALUES('a');" Mini.empty) in
  let w2 := snd (Mini.exec tt "INSERT INTO t(v) VALUES('b');" w1) in
  let w3 := snd (Mini.exec tt "INSERT INTO t(v) VALUES('c');" w2) in
  snd (Mini.prepare tt "SELECT id FROM t ORDER BY id" w3).

(** The rows "a" and "b"; statement 2 is an insert whose [:id] is bound to
    1, an id that is taken. *)
Definition duplicate_id : Mini.world :=
  let w1 := snd (Mini.prepare tt "INSERT INTO t(id, v) VALUES(:id, :v)" two_rows) in
  snd (Mini.bind_value 2%nat 1 (VInt 1) w1).

(** A callback that does nothing. *)
Definition idle_fn (_ : Statement MiniEngine) : M (unit * Mini.world) unit :=
  ret tt.

(** A callback that fails, and one that advances the cursor itself. *)
Definition failing_fn (_ : Statement MiniEngine) : M (unit * Mini.world) unit :=
  throw (mkSQLiteException "callback failed").

Definition stepping_fn (row : Statement MiniEngine) : M (unit * Mini.world) unit :=
  _ <- step row ;; ret tt.

(** An empty table and statement 1 compiled from an insert with one named
    parameter. *)
Definition insert_v : Mini.world :=
  snd (Mini.prepare tt "INSERT INTO t(v) VALUES(:v)" Mini.empty).

(** One row whose [v] is NULL, statement 2 positioned on it. *)
Definition on_null_row : Mini.world :=
  let w1 := snd (Mini.step 1%nat insert_v) in
  let w2 := snd (Mini.prepare tt "SELECT v FROM t ORDER BY id" w1) in
  snd (Mini.step 2%nat w2).

Definition q2 : Statement MiniEngine := mkStatement (E := MiniEngine) 2%nat.

(** A scope was opened over the rows "a" and "b", and the body added a
    third row and ended the transaction itself, with
    [db.execute("COMMIT;")]. *)
Definition ended_by_body : Mini.world :=
  let w1 := snd (Mini.exec tt "BEGIN;" two_rows) in
  let w2 := snd (Mini.exec tt "INSERT INTO t(v) VALUES('c');" w1) in
  snd (Mini.exec tt "COMMIT;" w2).

(** ... and a [COMMIT;] issued after that was refused: no transaction is
    open any more. *)
Definition commit_refused : Mini.world :=
  snd (Mini.exec tt "COMMIT;" ended_by_body).

(** Statement 1 of [insert_v] with [:v] bound to "a", stepped to
    completion. *)
Definition bound_and_done : Mini.world :=
  snd (Mini.step 1%nat (snd (Mini.bind_value 1%nat 1 (VText "a") insert_v))).

Definition pending : Transaction MiniEngine :=
  mkTransaction (E := MiniEngine) db true.

(** The engine state a computation leaves. *)
Definition after {A} (m : M (unit * Mini.world) A) (w : Mini.world) : Mini.world :=
  match m (tt, w) with
  | Some (_, (_, w')) => w'
  | None => w
  end.

(** [bind(":v","a"); while(step()); reset(); bind(":v","b"); while(step());]
    on statement 1 of [insert_v]. *)
Definition insert_twice : M (unit * Mini.world) unit :=
  bind_name_text q1 ":v" "a" ;;
  forEachRow_loop 2 q1 (fun _ => ret tt) ;;
  reset q1 ;;
  bind_name_text q1 ":v" "b" ;;
  forEachRow_loop 2 q1 (fun _ => ret tt).

(** A scope was opened on the empty table and two rows were inserted
    through statement 1. *)
Definition two_inserts_in_scope : Mini.world :=
  after insert_twice (after (Transaction_ctor db) insert_v).

End Run.

(* ------------------------------------------------------------------ *)
(** * Ownership of the native handles *)

(** The engine functions that create and release handles, with the null
    pointer of each handle type and the test [if(p)] reads. *)
Record Lifecycle (E : Engine) : Type := {
  nullptr_db : sqlite3 E;
  is_null_db : sqlite3 E -> bool;
  nullptr_stmt : sqlite3_stmt E;
  is_null_stmt : sqlite3_stmt E -> bool;
  sqlite3_open : string -> world E -> (Z * sqlite3 E) * world E;
  sqlite3_close : sqlite3 E -> world E -> Z * world E;
  sqlite3_finalize : sqlite3_stmt E -> world E -> Z * world E
}.

(** The null pointers are null. *)
Record NullLaws (E : Engine) (R : Lifecycle E) : Prop := {
  null_db_is_null : is_null_db R (nullptr_db R) = true;
  null_stmt_is_null : is_null_stmt R (nullptr_stmt R) = true
}.

(** The objects of one class, by address.  A member function that takes
    another object by reference takes its address, so that the two may be
    the same object. *)
Definition objects (T : Type) : Type := nat -> T.

Definition assign {T} (this : nat) (v : T) (o : objects T) : objects T :=
  fun a => if Nat.eqb a this then v else o a.

Section Ownership.

Variable E : Engine.
Variable R : Lifecycle E.

(** [Database(const std::string& filename)]: [sqlite3_open] writes the
    member even when it fails, and the message is read from it. *)
Definition Database_ctor (this : nat) (filename : string)
  : M (objects (Database E) * world E) unit :=
  r <- call E (sqlite3_open R filename) ;;
  let '(rc, h) := r in
  o <- get_local ;;
  put_local (assign this (mkDatabase h) o) ;;
  if negb (rc =? SQLITE_OK) then
    msg <- peek E (sqlite3_errmsg E h) ;;
    throw (mkSQLiteException msg)
  else ret tt.

(** [~Database() { if (db_) sqlite3_close(db_); }] *)
Definition Database_dtor {L} (this : Database E) : M (L * world E) unit :=
  if negb (is_null_db R (db_ this))
  then _ <- call E (sqlite3_close R (db_ this)) ;; ret tt
  else ret tt.

(** [Database(Database&& other) noexcept : db_(other.db_)
    { other.db_ = nullptr; }] *)
Definition Database_move_ctor (this other : nat)
  : M (objects (Database E) * world E) unit :=
  o <- get_local ;;
  put_local (assign this (mkDatabase (db_ (o other))) o) ;;
  o <- get_local ;;
  put_local (assign other (mkDatabase (nullptr_db R)) o).

(** [Database& operator=(Database&& other) noexcept] *)
Definition Database_move_assign (this other : nat)
  : M (objects (Database E) * world E) unit :=
  o <- get_local ;;
  Database_dtor (o this) ;;
  o <- get_local ;;
  put_local (assign this (mkDatabase (db_ (o other))) o) ;;
  o <- get_local ;;
  put_local (assign other (mkDatabase (nullptr_db R)) o).

(** [sqlite3* get() { return db_; }] *)
Definition Database_get (this : nat)
  : M (objects (Database E) * world E) (sqlite3 E) :=
  o <- get_local ;; ret (db_ (o this)).

(** [~Statement() { if(stmt_) sqlite3_finalize(stmt_); }] *)
Definition Statement_dtor {L} (this : Statement E) : M (L * world E) unit :=
  if negb (is_null_stmt R (stmt_ this))
  then _ <- call E (sqlite3_finalize R (stmt_ this)) ;; ret tt
  else ret tt.

(** [Statement(Statement&& other) noexcept : stmt_(other.stmt_)
    { other.stmt_ = nullptr; }] *)
Definition Statement_move_ctor (this other : nat)
  : M (objects (Statement E) * world E) unit :=
  o <- get_local ;;
  put_local (assign this (mkStatement (stmt_ (o other))) o) ;;
  o <- get_local ;;
  put_local (assign other (mkStatement (nullptr_stmt R)) o).

(** [Statement& operator=(Statement&& other) noexcept] *)
Definition Statement_move_assign (this other : nat)
  : M (objects (Statement E) * world E) unit :=
  o <- get_local ;;
  Statement_dtor (o this) ;;
  o <- get_local ;;
  put_local (assign this (mkStatement (stmt_ (o other))) o) ;;
  o <- get_local ;;
  put_local (assign other (mkStatement (nullptr_stmt R)) o).

(** ** The transactional block of example.cpp

    The block sits inside the [try] of [main], whose handler catches
    [SQLiteException]: automatic objects are destroyed when control leaves
    their block, by the end of the block or by an exception, in the reverse
    order of their construction; nothing is destroyed once the program is
    terminated. *)

(** A block that owns the statement [stmt] (through its [unique_ptr]). *)
Definition with_statement {L A} (stmt : Statement E) (body : M (L * world E) A)
  : M (L * world E) A :=
  fun s =>
    match body s with
    | None => None
    | Some (Terminate, s') => Some (Terminate, s')
    | Some (r, s') =>
        match Statement_dtor stmt s' with
        | Some (Ok _, s'') => Some (r, s'')
        | Some (_, s'') => Some (Terminate, s'')
        | None => None
        end
    end.

(** A block that owns the transaction scope [txn]; the body sees the
    object in front of the caller memory. *)
Definition with_transaction {U A} (txn : Transaction E)
    (body : M ((Transaction E * U) * world E) A) : M (U * world E) A :=
  fun s =>
    match body ((txn, fst s), snd s) with
    | None => None
    | Some (Terminate, ((_, u'), w')) => Some (Terminate, (u', w'))
    | Some (r, ((t, u'), w')) =>
        match Transaction_dtor (t, w') with
        | Some (Ok _, (_, w'')) => Some (r, (u', w''))
        | Some (_, (_, w'')) => Some (Terminate, (u', w''))
        | None => None
        end
    end.

(** A member call on the transaction object of the enclosing block. *)
Definition on_txn {U A} (m : M (Transaction E * world E) A)
  : M ((Transaction E * U) * world E) A :=
  fun s =>
    match m (fst (fst s), snd s) with
    | None => None
    | Some (r, (t', w')) => Some (r, ((t', snd (fst s)), w'))
    end.

(** [while(stmt->step());] *)
Fixpoint step_all {L} (fuel : nat) (this : Statement E) : M (L * world E) unit :=
  match fuel with
  | O => fun _ => None
  | S fuel' =>
      more <- step this ;;
      if more : bool then step_all fuel' this else ret tt
  end.

(** example.cpp, lines 22-29:
    [{ Transaction txn(db); auto stmt = db.prepare(...);
       stmt->bind(":name", "Alice"); while(stmt->step()); stmt->reset();
       stmt->bind(":name", "Bob");   while(stmt->step()); txn.commit(); }] *)
Definition insert_players {U} (fuel : nat) (db : Database E) : M (U * world E) unit :=
  txn <- Transaction_ctor db ;;
  with_transaction txn
    (stmt <- Database_prepare db "INSERT INTO players(name) VALUES(:name);" ;;
     with_statement stmt
       (bind_name_text stmt ":name" "Alice" ;;
        step_all fuel stmt ;;
        reset stmt ;;
        bind_name_text stmt ":name" "Bob" ;;
        step_all fuel stmt ;;
        on_txn (@Transaction_commit E))).

End Ownership.

Arguments Database_dtor {E} R {L} this.
Arguments Statement_dtor {E} R {L} this.
Arguments with_statement {E} R {L A} stmt body.
Arguments with_transaction {E U A} txn body.
Arguments on_txn {E U A} m.
Arguments step_all {E L} fuel this.
Arguments insert_players {E} R {U} fuel db.

(* ------------------------------------------------------------------ *)
(** * Rows in cursor order *)

Section Rows.

Variable E : Engine.

(** The engine states in which the statement sits on its first [n] rows,
    in the order the cursor reaches them. *)
Fixpoint visited (n : nat) (st : sqlite3_stmt E) (w : world E) : list (world E) :=
  match n with
  | O => []
  | S n' =>
      let w1 := snd (sqlite3_step E st w) in
      w1 :: visited n' st w1
  end.

(** The engine state after [n] rows and the step that finds no more. *)
Fixpoint exhausted (n : nat) (st : sqlite3_stmt E) (w : world E) : world E :=
  match n with
  | O => snd (sqlite3_step E st w)
  | S n' => exhausted n' st (snd (sqlite3_step E st w))
  end.

(** On the statement [this], the mapper returns normally what [f] reads in
    the engine, and changes nothing. *)
Definition reads {U T} (mapper : Statement E -> M (U * world E) T)
    (this : Statement E) (f : world E -> T) : Prop :=
  forall u w, mapper this (u, w) = Some (Ok (f w), (u, w)).

(** The two calls a caller can make on a transaction scope, and a sequence
    of them in which the caller catches whatever a call raises and goes
    on. *)
Inductive member := Commit | Rollback.

Definition invoke (c : member) : M (Transaction E * world E) unit :=
  match c with
  | Commit => @Transaction_commit E
  | Rollback => @Transaction_rollback E
  end.

Fixpoint replay (cs : list member) (s : Transaction E * world E)
  : Transaction E * world E :=
  match cs with
  | [] => s
  | c :: cs' =>
      match invoke c s with
      | Some (_, s') => replay cs' s'
      | None => s
      end
  end.

(** The statement has at least [k + 1] rows from [w]; on the first [k] the
    mapper returns normally and changes nothing, and on the next one it
    raises [e] and leaves the state [final]. *)
Fixpoint raises_on_row {U T} (k : nat) (mapper : Statement E -> M (U * world E) T)
    (this : Statement E) (e : SQLiteException) (final : U * world E)
    (u : U) (w : world E) : Prop :=
  let w1 := snd (sqlite3_step E (stmt_ this) w) in
  fst (sqlite3_step E (stmt_ this) w) = SQLITE_ROW /\
  match k with
  | O => mapper this (u, w1) = Some (Throw e, final)
  | S k' =>
      (exists t, mapper this (u, w1) = Some (Ok t, (u, w1))) /\
      raises_on_row k' mapper this e final u w1
  end.

(** A computation that leaves the caller memory as it found it and never
    terminates the program. *)
Definition keeps_memory {L A} (m : M (L * world E) A) : Prop :=
  forall s r s', m s = Some (r, s') -> fst s' = fst s /\ r <> Terminate.

End Rows.

Arguments visited {E} n st w.
Arguments exhausted {E} n st w.
Arguments reads {E U T} mapper this f.
Arguments raises_on_row {E U T} k mapper this e final u w.
Arguments keeps_memory {E L A} m.
Arguments invoke {E} c.
Arguments replay {E} cs s.

(* ------------------------------------------------------------------ *)
(** * Ledger: an engine that accepts everything and keeps a record

    Its state is the list of the calls that changed it, oldest first.
    Handles are numbered from 1 and 0 is the null pointer.  Every call is
    answered [SQLITE_OK], and a step finds no row, with two exceptions:
    opening the name "/" is refused (the handle is allocated all the same),
    and compiling the empty text yields the null statement. *)

Module Ledger.

Inductive event :=
| Opened (name : string) (h : nat)
| Closed (h : nat)
| Executed (h : nat) (sql : string)
| Prepared (h : nat) (sql : string) (st : nat)
| Finalized (st : nat)
| Bound (st : nat) (index : Z) (v : value)
| Stepped (st : nat)
| Rewound (st : nat).

Definition world := list event.

Definition SQLITE_CANTOPEN : Z := 14.

Definition is_open (e : event) : bool :=
  match e with Opened _ _ => true | _ => false end.

Definition is_prepared (e : event) : bool :=
  match e with Prepared _ _ _ => true | _ => false end.

Definition fresh (kind : event -> bool) (w : world) : nat :=
  S (List.length (filter kind w)).

Definition record {A} (a : A) (e : event) (w : world) : A * world :=
  (a, (w ++ [e])%list).

Definition open (name : string) (w : world) : (Z * nat) * world :=
  let h := fresh is_open w in
  record (if String.eqb name "/" then SQLITE_CANTOPEN else SQLITE_OK, h)
         (Opened name h) w.

Definition prepare (h : nat) (sql : string) (w : world) : (Z * nat) * world :=
  let st := if String.eqb sql "" then O else fresh is_prepared w in
  record (SQLITE_OK, st) (Prepared h sql st) w.

Definition parameter_index (st : nat) (name : string) (w : world) : Z :=
  match Mini.strip_prefix ":" name with
  | Some (String _ _) => 1
  | _ => 0
  end.

Definition null (h : nat) : bool := Nat.eqb h 0.

End Ledger.

Definition LedgerEngine : Engine := {|
  world := Ledger.world;
  sqlite3 := nat;
  sqlite3_stmt := nat;
  content := unit;
  sqlite3_exec := fun h sql => Ledger.record (SQLITE_OK, None) (Ledger.Executed h sql);
  sqlite3_prepare_v2 := Ledger.prepare;
  sqlite3_errmsg := fun _ _ => "unable to open database file";
  sqlite3_db_handle := fun _ _ => 1%nat;
  sqlite3_bind_int := fun st i v => Ledger.record SQLITE_OK (Ledger.Bound st i (VInt v));
  sqlite3_bind_double := fun st i v => Ledger.record SQLITE_OK (Ledger.Bound st i (VReal v));
  sqlite3_bind_text := fun st i v => Ledger.record SQLITE_OK (Ledger.Bound st i (VText v));
  sqlite3_bind_parameter_index := Ledger.parameter_index;
  sqlite3_step := fun st => Ledger.record SQLITE_DONE (Ledger.Stepped st);
  sqlite3_reset := fun st => Ledger.record SQLITE_OK (Ledger.Rewound st);
  sqlite3_column_int := fun _ _ _ => 0;
  sqlite3_column_double := fun _ _ _ => PrimFloat.zero;
  sqlite3_column_text := fun _ _ _ => None;
  cursor_of := fun _ _ => Ready;
  bound_of := fun _ _ => [];
  content_of := fun _ _ => tt;
  pending_of := fun _ _ => None
|}.

Definition LedgerLife : Lifecycle LedgerEngine :=
  @Build_Lifecycle LedgerEngine
    O Ledger.null
    O Ledger.null
    Ledger.open
    (fun h => Ledger.record SQLITE_OK (Ledger.Closed h))
    (fun st => Ledger.record SQLITE_OK (Ledger.Finalized st)).

(** Handles on [Mini]: its one connection is never null and closing it
    changes nothing; statement 0 is the null statement; a finalized
    statement keeps its slot and is rewound. *)
Definition MiniLife : Lifecycle MiniEngine :=
  @Build_Lifecycle MiniEngine
    tt (fun _ => false)
    O (Nat.eqb O)
    (fun _ w => ((SQLITE_OK, tt), w))
    (fun _ w => (SQLITE_OK, w))
    Mini.reset.

(** Concrete objects and callbacks for the executions below. *)
Module Demo.

(** Two [Database] objects: the one at address 0 owns handle 1, the one at
    address 1 owns handle 2; every other address holds an empty object. *)
Definition two_owners : objects (Database LedgerEngine) :=
  assign 0%nat (mkDatabase (E := LedgerEngine) 1%nat)
    (assign 1%nat (mkDatabase (E := LedgerEngine) 2%nat)
       (fun _ => mkDatabase (E := LedgerEngine) 0%nat)).

Definition two_statements : objects (Statement LedgerEngine) :=
  assign 0%nat (mkStatement (E := LedgerEngine) 1%nat)
    (assign 1%nat (mkStatement (E := LedgerEngine) 2%nat)
       (fun _ => mkStatement (E := LedgerEngine) 0%nat)).

Definition ledger_db : Database LedgerEngine := mkDatabase (E := LedgerEngine) 1%nat.

(** A callback that rewinds the statement it is given. *)
Definition resetting_fn (row : Statement MiniEngine) : M (unit * Mini.world) unit :=
  reset row.

(** [struct Player { int id; std::string name; }] and the mapper of
    example.cpp, [Player{ row.getInt(0), row.getText(1) }]. *)
Record Player := mkPlayer { id : int; name : string }.

Definition to_player {E U} (row : Statement E) : M (U * world E) Player :=
  i <- getInt row 0 ;;
  n <- getText row 1 ;;
  ret (mkPlayer i n).

(** A mapper that reads column 0 and refuses the value 2. *)
Definition picky {E U} (row : Statement E) : M (U * world E) int :=
  i <- getInt row 0 ;;
  if i =? 2 then throw (mkSQLiteException "unexpected id") else ret i.

Definition player_of {E} (st : sqlite3_stmt E) (w : world E) : Player :=
  mkPlayer (sqlite3_column_int E st 0 w)
           (match sqlite3_column_text E st 1 w with Some t => t | None => "" end).

End Demo.

(* ------------------------------------------------------------------ *)
(** * Mini satisfies the engine laws *)

Module MiniFacts.
Import Mini.

Lemma lookup_store_same h s s0 w :
  lookup h w = Some s0 -> lookup h (store h s w) = Some s.
Proof.
  destruct h as [|i]; [discriminate|].
  unfold lookup, store; simpl.
  generalize (stmts w). induction i as [|i IH]; intros [|y l] H; simpl in *;
    try discriminate; auto.
Qed.

Lemma reset_cursor_ready h w : cursor h (snd (reset h w)) = Ready.
Proof.
  unfold reset, cursor.
  destruct (lookup h w) as [s|] eqn:Hl; simpl.
  - erewrite lookup_store_same by eassumption. reflexivity.
  - rewrite Hl. reflexivity.
Qed.

Lemma reset_keeps_bound h w : bound h (snd (reset h w)) = bound h w.
Proof.
  unfold reset, bound.
  destruct (lookup h w) as [s|] eqn:Hl; simpl.
  - erewrite lookup_store_same by eassumption. reflexivity.
  - rewrite Hl. reflexivity.
Qed.

Lemma exec_begin w m w' :
  exec tt "BEGIN;" w = ((SQLITE_OK, m), w') -> saved w' = Some (tbl w).
Proof.
  unfold exec; simpl.
  destruct (saved w); intros H; inversion H; subst; reflexivity.
Qed.

Lemma exec_rollback w c :
  saved w = Some c ->
  exists m w', exec tt "ROLLBACK;" w = ((SQLITE_OK, m), w') /\ tbl w' = c.
Proof.
  intros H. unfold exec; simpl. rewrite H.
  eexists. eexists. split; reflexivity.
Qed.

End MiniFacts.

Lemma Mini_laws : EngineLaws MiniEngine.
Proof.
  constructor; simpl.
  - exact MiniFacts.reset_cursor_ready.
  - exact MiniFacts.reset_keeps_bound.
  - intros [] w m w'. apply MiniFacts.exec_begin.
  - intros [] w c. apply MiniFacts.exec_rollback.
Qed.

(* ------------------------------------------------------------------ *)
(** * Parameter binding *)

Section Binding.

Variable E : Engine.
Variable L : Type.

(** C10: a positional bind of an integer, a double or a text returns
    normally for every index, valid or not: the new engine state is the one
    the engine's bind function left, and the status code it answered is
    dropped, so no error is ever raised. *)
Theorem positional_bind_returns_normally
    (this : Statement E) (index : int) (i : int) (d : double) (t : string)
    (s : L * world E) :
  bind_int this index i s =
    Some (Ok tt, (fst s, snd (sqlite3_bind_int E (stmt_ this) index i (snd s))))
  /\ bind_double this index d s =
    Some (Ok tt, (fst s, snd (sqlite3_bind_double E (stmt_ this) index d (snd s))))
  /\ bind_text this index t s =
    Some (Ok tt, (fst s, snd (sqlite3_bind_text E (stmt_ this) index t (snd s)))).
Proof.
  unfold bind_int, bind_double, bind_text, mbind, call, ret.
  destruct (sqlite3_bind_int E (stmt_ this) index i (snd s)).
  destruct (sqlite3_bind_double E (stmt_ this) index d (snd s)).
  destruct (sqlite3_bind_text E (stmt_ this) index t (snd s)).
  repeat split.
Qed.

(** C5: when the name resolves to no parameter of the compiled statement
    (the engine's lookup answers 0), each of the three named binds returns
    normally and leaves the whole state, hence the bound parameters and the
    cursor, as it was. *)
Theorem named_bind_unknown_is_noop
    (this : Statement E) (name : string) (i : int) (d : double) (t : string)
    (s : L * world E) :
  sqlite3_bind_parameter_index E (stmt_ this) name (snd s) = 0 ->
  bind_name_int this name i s = Some (Ok tt, s)
  /\ bind_name_double this name d s = Some (Ok tt, s)
  /\ bind_name_text this name t s = Some (Ok tt, s).
Proof.
  intros H.
  unfold bind_name_int, bind_name_double, bind_name_text, mbind, peek.
  rewrite H. simpl. repeat split.
Qed.

(** C8: when the engine hands back the null pointer for a text column (a
    NULL or absent value), [getText] returns the empty string and changes
    nothing. *)
Theorem getText_null_is_empty
    (this : Statement E) (col : int) (s : L * world E) :
  sqlite3_column_text E (stmt_ this) col (snd s) = None ->
  getText this col s = Some (Ok "", s).
Proof.
  intros H. unfold getText, mbind, peek, ret. rewrite H. reflexivity.
Qed.

End Binding.

(** On [Mini], ":typo" is no parameter of [INSERT INTO t(v) VALUES(:v)]:
    the binds leave the statement with its parameter unbound. *)
Lemma named_bind_unknown_is_noop_witness :
  sqlite3_bind_parameter_index MiniEngine 1%nat ":typo" Run.insert_v = 0 /\
  bind_name_int Run.q1 ":typo" 7 (tt, Run.insert_v) = Some (Ok tt, (tt, Run.insert_v)) /\
  bind_name_double Run.q1 ":typo" PrimFloat.one (tt, Run.insert_v)
    = Some (Ok tt, (tt, Run.insert_v)) /\
  bind_name_text Run.q1 ":typo" "x" (tt, Run.insert_v)
    = Some (Ok tt, (tt, Run.insert_v)).
Proof.
  split; [reflexivity|].
  apply (@named_bind_unknown_is_noop MiniEngine unit Run.q1 ":typo" 7
           PrimFloat.one "x" (tt, Run.insert_v)).
  reflexivity.
Defined.

(** On [Mini], a row whose [v] is NULL: the statement is on a row, the
    engine answers the null pointer, [getText] answers [""]. *)
Lemma getText_null_is_empty_witness :
  cursor_of MiniEngine 2%nat Run.on_null_row = HasRow /\
  getText Run.q2 0 (tt, Run.on_null_row) = Some (Ok "", (tt, Run.on_null_row)).
Proof.
  split; [reflexivity|].
  apply (@getText_null_is_empty MiniEngine unit Run.q2 0 (tt, Run.on_null_row)).
  reflexivity.
Defined.

(** On [Mini], binding index 9 of a one-parameter statement is answered
    [SQLITE_RANGE] by the engine and still returns normally; so does a bind
    on a statement that sits on a row ([SQLITE_MISUSE]). *)
Example positional_bind_out_of_range :
  fst (sqlite3_bind_int MiniEngine 1%nat 9 5 Run.insert_v) = SQLITE_RANGE /\
  (exists w', bind_int Run.q1 9 5 (tt, Run.insert_v) = Some (Ok tt, (tt, w'))
              /\ bound_of MiniEngine 1%nat w' = [VNull]) /\
  fst (sqlite3_bind_text MiniEngine 2%nat 1 "x" Run.on_null_row) = SQLITE_MISUSE /\
  (exists w', bind_text Run.q2 1 "x" (tt, Run.on_null_row) = Some (Ok tt, (tt, w'))).
Proof.
  split; [reflexivity|]. split; [eexists; split; reflexivity|].
  split; [reflexivity|]. eexists; reflexivity.
Qed.

(* ------------------------------------------------------------------ *)
(** * The transaction scope *)

Section Transactions.

Variable E : Engine.

(** [execute] hands the text to the engine once, and raises exactly when
    the engine's answer is not [SQLITE_OK]. *)
Lemma execute_spec U (db : Database E) (sql : string) (s : U * world E) :
  Database_execute db sql s =
    let r := sqlite3_exec E (db_ db) sql (snd s) in
    if fst (fst r) =? SQLITE_OK
    then Some (Ok tt, (fst s, snd r))
    else Some (Throw (mkSQLiteException (error_text (snd (fst r)))), (fst s, snd r)).
Proof.
  unfold Database_execute, mbind, call, error_text.
  destruct (sqlite3_exec E (db_ db) sql (snd s)) as [[rc m] w']; simpl.
  destruct (rc =? SQLITE_OK); reflexivity.
Qed.

Lemma ctor_spec U (db : Database E) (s s' : U * world E) t :
  Transaction_ctor db s = Some (Ok t, s') ->
  t = mkTransaction db true /\
  fst s' = fst s /\
  exists m, sqlite3_exec E (db_ db) "BEGIN;" (snd s) = ((SQLITE_OK, m), snd s').
Proof.
  unfold Transaction_ctor, mbind. rewrite execute_spec. simpl.
  destruct (sqlite3_exec E (db_ db) "BEGIN;" (snd s)) as [[rc m] w'] eqn:Hx; simpl.
  destruct (rc =? SQLITE_OK) eqn:Hrc; [|discriminate].
  unfold ret. intros H; inversion H; subst; simpl.
  apply Z.eqb_eq in Hrc. subst rc. repeat split. exists m. reflexivity.
Qed.

(** What a member call that issues [sql] and then clears the flag does. *)
Lemma resolve_spec (sql : string) (t : Transaction E) (w : world E) :
  (this <- get_local ;;
   Database_execute (tx_db_ this) sql ;;
   put_local (mkTransaction (tx_db_ this) false)) (t, w) =
    let r := sqlite3_exec E (db_ (tx_db_ t)) sql w in
    if fst (fst r) =? SQLITE_OK
    then Some (Ok tt, (mkTransaction (tx_db_ t) false, snd r))
    else Some (Throw (mkSQLiteException (error_text (snd (fst r)))), (t, snd r)).
Proof.
  unfold mbind at 1. unfold get_local. simpl.
  unfold mbind. rewrite execute_spec. simpl.
  destruct (fst (fst (sqlite3_exec E (db_ (tx_db_ t)) sql w)) =? SQLITE_OK);
    reflexivity.
Qed.

Lemma dtor_body_spec (t : Transaction E) (w : world E) :
  Transaction_dtor_body (t, w) =
    if active_ t then Database_execute (tx_db_ t) "ROLLBACK;" (t, w)
    else Some (Ok tt, (t, w)).
Proof.
  unfold Transaction_dtor_body, mbind, get_local. simpl.
  destruct (active_ t); reflexivity.
Qed.

(** A resolved scope is destroyed in silence. *)
Lemma dtor_resolved (t : Transaction E) (w : world E) :
  active_ t = false -> Transaction_dtor (t, w) = Some (Ok tt, (t, w)).
Proof.
  intros H. unfold Transaction_dtor, noexcept.
  rewrite dtor_body_spec, H. reflexivity.
Qed.

(** A pending scope hands [ROLLBACK;] to the engine when it is destroyed. *)
Lemma dtor_pending (t : Transaction E) (w : world E) :
  active_ t = true ->
  Transaction_dtor (t, w) =
    let r := sqlite3_exec E (db_ (tx_db_ t)) "ROLLBACK;" w in
    if fst (fst r) =? SQLITE_OK
    then Some (Ok tt, (t, snd r))
    else Some (Terminate, (t, snd r)).
Proof.
  intros H. unfold Transaction_dtor, noexcept.
  rewrite dtor_body_spec, H, execute_spec. simpl.
  destruct (fst (fst (sqlite3_exec E (db_ (tx_db_ t)) "ROLLBACK;" w)) =? SQLITE_OK);
    reflexivity.
Qed.

(** A [commit()] or [rollback()] that returns normally has cleared the
    flag. *)
Lemma resolved_after_success (t t' : Transaction E) (w w' : world E) :
  Transaction_commit (t, w) = Some (Ok tt, (t', w')) \/
  Transaction_rollback (t, w) = Some (Ok tt, (t', w')) ->
  active_ t' = false.
Proof.
  unfold Transaction_commit, Transaction_rollback.
  rewrite !resolve_spec. simpl.
  intros [H | H];
    match type of H with
    | (if ?c then _ else _) = _ => destruct c; inversion H; reflexivity
    end.
Qed.

(** A [commit()] or [rollback()] that raises has left the scope object as
    it was. *)
Lemma unchanged_after_failure (t t' : Transaction E) (w w' : world E) e :
  Transaction_commit (t, w) = Some (Throw e, (t', w')) \/
  Transaction_rollback (t, w) = Some (Throw e, (t', w')) ->
  t' = t.
Proof.
  unfold Transaction_commit, Transaction_rollback.
  rewrite !resolve_spec. simpl.
  intros [H | H];
    match type of H with
    | (if ?c then _ else _) = _ => destruct c; inversion H; reflexivity
    end.
Qed.

(** C9: a [commit()] (or [rollback()]) that leaves by an exception has
    changed nothing in the scope object, so a scope that was pending is
    still pending and its destruction hands [ROLLBACK;] to the engine; a
    call that returns normally has seen the engine answer [SQLITE_OK] to
    its statement, and only then is the flag cleared. *)
Theorem failed_commit_leaves_scope_pending
    (t : Transaction E) (w : world E) (r : outcome unit)
    (s' : Transaction E * world E) (sql : string) :
  (sql = "COMMIT;" /\ Transaction_commit (t, w) = Some (r, s')) \/
  (sql = "ROLLBACK;" /\ Transaction_rollback (t, w) = Some (r, s')) ->
  snd s' = snd (sqlite3_exec E (db_ (tx_db_ t)) sql w) /\
  match r with
  | Ok _ =>
      fst (fst (sqlite3_exec E (db_ (tx_db_ t)) sql w)) = SQLITE_OK /\
      active_ (fst s') = false
  | Throw _ =>
      fst (fst (sqlite3_exec E (db_ (tx_db_ t)) sql w)) <> SQLITE_OK /\
      fst s' = t /\
      (active_ t = true ->
       exists r',
         Transaction_dtor s' =
           Some (r', (t, snd (sqlite3_exec E (db_ (tx_db_ t)) "ROLLBACK;" (snd s')))))
  | Terminate => False
  end.
Proof.
  intros H.
  assert (Hr : (this <- get_local ;;
                Database_execute (tx_db_ this) sql ;;
                put_local (mkTransaction (tx_db_ this) false)) (t, w)
               = Some (r, s')).
  { destruct H as [[-> H] | [-> H]]; exact H. }
  clear H. rewrite resolve_spec in Hr. simpl in Hr.
  destruct (fst (fst (sqlite3_exec E (db_ (tx_db_ t)) sql w)) =? SQLITE_OK) eqn:Hrc;
    inversion Hr; subst; simpl; split; auto.
  - apply Z.eqb_eq in Hrc. auto.
  - apply Z.eqb_neq in Hrc. repeat split; auto.
    intros Ha. rewrite (dtor_pending _ _ Ha). simpl.
    destruct (fst (fst (sqlite3_exec E (db_ (tx_db_ t)) "ROLLBACK;"
                          (snd (sqlite3_exec E (db_ (tx_db_ t)) sql w)))) =? SQLITE_OK);
      eexists; reflexivity.
Qed.

(** C4, as the code has it: when the engine refuses the automatic
    [ROLLBACK;] of a pending scope, [execute] raises the engine's message
    inside the destructor; nothing catches or logs it, and since the
    destructor is [noexcept] the program is terminated. *)
Theorem failed_auto_rollback_terminates
    (t : Transaction E) (w w' : world E) (rc : Z) (m : option string) :
  active_ t = true ->
  sqlite3_exec E (db_ (tx_db_ t)) "ROLLBACK;" w = ((rc, m), w') ->
  rc <> SQLITE_OK ->
  Transaction_dtor_body (t, w) =
    Some (Throw (mkSQLiteException (error_text m)), (t, w')) /\
  Transaction_dtor (t, w) = Some (Terminate, (t, w')).
Proof.
  intros Ha Hx Hrc. apply Z.eqb_neq in Hrc.
  rewrite (dtor_pending _ _ Ha), dtor_body_spec, Ha, execute_spec.
  simpl. rewrite Hx. simpl. rewrite Hrc. split; reflexivity.
Qed.

(** C1, as the code has it: a scope built by the constructor is pending,
    and destroying a pending scope hands [ROLLBACK;] to the engine.  When
    the transaction the scope opened is still the open one, that rollback
    succeeds and the content is again what it was before [BEGIN].  Once
    [commit()] or [rollback()] has returned normally, destruction returns
    normally and leaves the engine untouched.  A [commit()] or [rollback()]
    that was called and raised leaves the scope pending: its destruction
    still hands [ROLLBACK;] to the engine. *)
Theorem scope_rolls_back_unless_resolved
    (Laws : EngineLaws E) (U : Type) (db : Database E)
    (s0 s1 : U * world E) (t : Transaction E) :
  Transaction_ctor db s0 = Some (Ok t, s1) ->
  (forall w2, exists r,
      Transaction_dtor (t, w2) =
        Some (r, (t, snd (sqlite3_exec E (db_ db) "ROLLBACK;" w2)))) /\
  (forall w2,
      pending_of E (db_ db) w2 = pending_of E (db_ db) (snd s1) ->
      exists w3,
        Transaction_dtor (t, w2) = Some (Ok tt, (t, w3)) /\
        content_of E (db_ db) w3 = content_of E (db_ db) (snd s0)) /\
  (forall w2 t' w3,
      Transaction_commit (t, w2) = Some (Ok tt, (t', w3)) \/
      Transaction_rollback (t, w2) = Some (Ok tt, (t', w3)) ->
      forall w4, Transaction_dtor (t', w4) = Some (Ok tt, (t', w4))) /\
  (forall w2 e t' w3,
      Transaction_commit (t, w2) = Some (Throw e, (t', w3)) \/
      Transaction_rollback (t, w2) = Some (Throw e, (t', w3)) ->
      t' = t /\
      forall w4, exists r,
        Transaction_dtor (t', w4) =
          Some (r, (t', snd (sqlite3_exec E (db_ db) "ROLLBACK;" w4)))).
Proof.
  intros Hc. apply ctor_spec in Hc. destruct Hc as (-> & _ & m & Hb).
  assert (Hpending : forall w2, exists r,
             Transaction_dtor (mkTransaction db true, w2) =
               Some (r, (mkTransaction db true,
                         snd (sqlite3_exec E (db_ db) "ROLLBACK;" w2)))).
  { intros w2. rewrite dtor_pending by reflexivity. simpl.
    destruct (fst (fst (sqlite3_exec E (db_ db) "ROLLBACK;" w2)) =? SQLITE_OK);
      eexists; reflexivity. }
  split; [|split; [|split]]; [| | |
    intros w2 e t' w3 H; apply unchanged_after_failure in H; subst t';
    split; [reflexivity | exact Hpending]].
  - exact Hpending.
  - intros w2 Hp.
    rewrite (begin_saves Laws _ _ Hb) in Hp.
    destruct (rollback_restores Laws _ _ Hp) as (m' & w3 & Hr & Hcont).
    exists w3. rewrite dtor_pending by reflexivity. simpl.
    rewrite Hr. simpl. split; [reflexivity | exact Hcont].
  - intros w2 t' w3 H w4. apply dtor_resolved.
    eapply resolved_after_success; exact H.
Qed.

End Transactions.

(** On [Mini], the body of a scope has ended the transaction itself and
    then calls [commit()]: the engine refuses, no transaction being open;
    the scope object is unchanged, and its destruction hands [ROLLBACK;] to
    the engine. *)
Lemma failed_commit_leaves_scope_pending_witness :
  Transaction_commit (Run.pending, Run.ended_by_body) =
    Some (Throw (mkSQLiteException "cannot commit - no transaction is active"),
          (Run.pending, Run.commit_refused)) /\
  exists r',
    Transaction_dtor (Run.pending, Run.commit_refused) =
      Some (r', (Run.pending,
                 snd (sqlite3_exec MiniEngine tt "ROLLBACK;" Run.commit_refused))).
Proof.
  assert (Hrun : Transaction_commit (Run.pending, Run.ended_by_body) =
    Some (Throw (mkSQLiteException "cannot commit - no transaction is active"),
          (Run.pending, Run.commit_refused))) by reflexivity.
  split; [exact Hrun|].
  destruct (@failed_commit_leaves_scope_pending MiniEngine _ _ _ _ "COMMIT;"
              (or_introl (conj eq_refl Hrun))) as (_ & _ & _ & Hd).
  exact (Hd eq_refl).
Defined.

(** On [Mini], once the body has ended the transaction itself, the
    rollback of the destructor is refused. *)
Lemma failed_auto_rollback_terminates_witness :
  let w' := Mini.set_err "cannot rollback - no transaction is active"
              Run.ended_by_body in
  Transaction_dtor_body (Run.pending, Run.ended_by_body) =
    Some (Throw (mkSQLiteException "cannot rollback - no transaction is active"),
          (Run.pending, w')) /\
  Transaction_dtor (Run.pending, Run.ended_by_body) =
    Some (Terminate, (Run.pending, w')).
Proof.
  intros w'.
  apply (@failed_auto_rollback_terminates MiniEngine Run.pending
           Run.ended_by_body w' SQLITE_ERROR
           (Some "cannot rollback - no transaction is active")).
  - reflexivity.
  - reflexivity.
  - discriminate.
Defined.

(** C4, as the specification words it, fails: the destructor of the pending
    scope over [Run.ended_by_body] does not return; the program is
    terminated with the engine's message unreported. *)
Lemma rollback_failure_not_swallowed :
  Transaction_dtor (Run.pending, Run.ended_by_body) =
    Some (Terminate,
          (Run.pending,
           Mini.set_err "cannot rollback - no transaction is active"
             Run.ended_by_body)) /\
  ~ swallows_rollback_failure MiniEngine.
Proof.
  split; [reflexivity|].
  intros H. destruct (H Run.pending Run.ended_by_body eq_refl) as [s' Hs].
  vm_compute in Hs. discriminate Hs.
Qed.

(** The scenario of the specification on [Mini]: two rows inserted inside a
    scope that is destroyed unresolved are gone afterwards. *)
Lemma scope_rolls_back_unless_resolved_witness :
  Transaction_ctor Run.db (tt, Run.insert_v) =
    Some (Ok Run.pending, (tt, Run.after (Transaction_ctor Run.db) Run.insert_v)) /\
  Mini.tbl Run.two_inserts_in_scope = [(1, VText "a"); (2, VText "b")] /\
  exists w3,
    Transaction_dtor (Run.pending, Run.two_inserts_in_scope) =
      Some (Ok tt, (Run.pending, w3)) /\
    Mini.tbl w3 = [].
Proof.
  assert (Hc : Transaction_ctor Run.db (tt, Run.insert_v) =
    Some (Ok Run.pending, (tt, Run.after (Transaction_ctor Run.db) Run.insert_v)))
    by reflexivity.
  split; [exact Hc|]. split; [reflexivity|].
  destruct (@scope_rolls_back_unless_resolved MiniEngine Mini_laws unit
              Run.db _ _ _ Hc) as (_ & Hback & _ & _).
  apply (Hback Run.two_inserts_in_scope). reflexivity.
Defined.

(** C1, as the specification words it, fails twice on [Mini], on a scope
    whose body has ended the transaction itself.  When [commit()] is then
    called, the engine refuses it and the scope stays pending: its
    destruction does issue SQL, the [ROLLBACK;] that the engine refuses in
    turn.  And when neither call is made, the scope is destroyed with the
    row added inside it still in the table. *)
Lemma destruction_after_refused_commit_issues_rollback :
  (Transaction_commit (Run.pending, Run.ended_by_body) =
     Some (Throw (mkSQLiteException "cannot commit - no transaction is active"),
           (Run.pending, Run.commit_refused)) /\
   Transaction_dtor (Run.pending, Run.commit_refused) =
     Some (Terminate,
           (Run.pending, snd (Mini.exec tt "ROLLBACK;" Run.commit_refused))) /\
   Mini.errmsg (snd (Mini.exec tt "ROLLBACK;" Run.commit_refused)) =
     "cannot rollback - no transaction is active") /\
  ~ silent_after_resolution_call MiniEngine /\
  (Mini.tbl Run.two_rows = [(1, VText "a"); (2, VText "b")] /\
   exists w2,
     Transaction_dtor (Run.pending, Run.ended_by_body) = Some (Terminate, (Run.pending, w2)) /\
     Mini.tbl w2 = [(1, VText "a"); (2, VText "b"); (3, VText "c")]).
Proof.
  split; [|split].
  - split; [reflexivity|]. split; reflexivity.
  - intros H.
    assert (Hd := H Run.pending Run.ended_by_body _ _
                    (or_introl (eq_refl
                       (Transaction_commit (Run.pending, Run.ended_by_body))))).
    vm_compute in Hd. discriminate Hd.
  - split; [reflexivity|]. eexists. split; reflexivity.
Qed.

(* ------------------------------------------------------------------ *)
(** * The cursor protocol *)

Section Cursor.

Variable E : Engine.

(** [step] asks the engine for one step and sorts its answer. *)
Lemma step_spec U (this : Statement E) (s : U * world E) :
  step this s =
    let r := sqlite3_step E (stmt_ this) (snd s) in
    if fst r =? SQLITE_ROW then Some (Ok true, (fst s, snd r))
    else if fst r =? SQLITE_DONE then Some (Ok false, (fst s, snd r))
    else Some (Throw (mkSQLiteException
                        (sqlite3_errmsg E (sqlite3_db_handle E (stmt_ this) (snd r))
                           (snd r))),
               (fst s, snd r)).
Proof.
  unfold step, mbind, call, peek, ret, throw.
  destruct (sqlite3_step E (stmt_ this) (snd s)) as [rc w']; simpl.
  destruct (rc =? SQLITE_ROW); [reflexivity|].
  destruct (rc =? SQLITE_DONE); reflexivity.
Qed.

Lemma reset_spec U (this : Statement E) (s : U * world E) :
  reset this s = Some (Ok tt, (fst s, snd (sqlite3_reset E (stmt_ this) (snd s)))).
Proof.
  unfold reset, mbind, call, ret.
  destruct (sqlite3_reset E (stmt_ this) (snd s)); reflexivity.
Qed.

(** [step] does not look at the caller memory. *)
Lemma step_frame U V (this : Statement E) (v : V) (u : U) (w : world E) :
  step this ((v, u), w) =
    match step this (u, w) with
    | Some (r, (u', w')) => Some (r, ((v, u'), w'))
    | None => None
    end.
Proof.
  rewrite !step_spec. simpl.
  destruct (fst (sqlite3_step E (stmt_ this) w) =? SQLITE_ROW); [reflexivity|].
  destruct (fst (sqlite3_step E (stmt_ this) w) =? SQLITE_DONE); reflexivity.
Qed.

(** ** The loop of forEachRow *)

(** Where an outcome of the loop comes from: the last [step], or the
    callback. *)
Lemma loop_exit U (fn : Statement E -> M (U * world E) unit)
    (this : Statement E) (fuel : nat) :
  forall (s s' : U * world E) r,
    forEachRow_loop fuel this fn s = Some (r, s') ->
    match r with
    | Ok _ => exists s0, step this s0 = Some (Ok false, s')
    | Throw e =>
        (exists s0, step this s0 = Some (Throw e, s')) \/
        (exists s0 s1, step this s0 = Some (Ok true, s1) /\
                       fn this s1 = Some (Throw e, s'))
    | Terminate =>
        exists s0 s1, step this s0 = Some (Ok true, s1) /\
                      fn this s1 = Some (Terminate, s')
    end.
Proof.
  induction fuel as [|fuel IH]; intros s s' r; simpl; [discriminate|].
  unfold mbind at 1.
  destruct (step this s) as [[[more | e |] s1]|] eqn:Hstep; try discriminate.
  - destruct more.
    + unfold mbind at 1.
      destruct (fn this s1) as [[[[] | e |] s2]|] eqn:Hfn; try discriminate.
      * apply IH.
      * intros H; inversion H; subst. right. eauto.
      * intros H; inversion H; subst. eauto.
    + unfold ret. intros H; inversion H; subst. eauto.
  - intros H; inversion H; subst. left. eauto.
  - rewrite step_spec in Hstep. simpl in Hstep.
    destruct (fst (sqlite3_step E (stmt_ this) (snd s)) =? SQLITE_ROW);
      [discriminate|].
    destruct (fst (sqlite3_step E (stmt_ this) (snd s)) =? SQLITE_DONE);
      discriminate.
Qed.

(** [forEachRow] is its loop, followed by [reset] when the loop returned. *)
Lemma forEachRow_spec U (fn : Statement E -> M (U * world E) unit)
    (this : Statement E) (fuel : nat) (s : U * world E) :
  forEachRow fuel this fn s =
    match forEachRow_loop fuel this fn s with
    | Some (Ok _, s1) =>
        Some (Ok tt, (fst s1, snd (sqlite3_reset E (stmt_ this) (snd s1))))
    | other => other
    end.
Proof.
  unfold forEachRow, mbind.
  destruct (forEachRow_loop fuel this fn s) as [[[[] | e |] s1]|]; try reflexivity.
  apply reset_spec.
Qed.

(** The callback is only ever applied to the statement itself. *)
Lemma loop_passes_statement U (fn fn' : Statement E -> M (U * world E) unit)
    (this : Statement E) :
  (forall s, fn' this s = fn this s) ->
  forall (fuel : nat) (s : U * world E),
    forEachRow_loop fuel this fn' s = forEachRow_loop fuel this fn s.
Proof.
  intros Hsame. induction fuel as [|fuel IH]; intros s; simpl; [reflexivity|].
  unfold mbind at 1 3.
  destruct (step this s) as [[[more | e |] s1]|]; try reflexivity.
  destruct more; [|reflexivity].
  unfold mbind at 1 2. rewrite Hsame.
  destruct (fn this s1) as [[[[] | e |] s2]|]; try reflexivity.
  apply IH.
Qed.

Lemma counted_call U (fn : Statement E -> M (U * world E) unit)
    (row : Statement E) (c : nat) (u u' : U) (w w' : world E) r :
  fn row (u, w) = Some (r, (u', w')) ->
  counted fn row ((c, u), w) = Some (r, ((S c, u'), w')).
Proof.
  intros H. unfold counted, mbind, get_local, put_local, frame. simpl.
  rewrite H. reflexivity.
Qed.

(** With a callback that only reads, the loop over [n] rows counts to [n]. *)
Lemma counted_loop U (fn : Statement E -> M (U * world E) unit)
    (this : Statement E) :
  reads_only fn ->
  forall (n fuel c : nat) (u : U) (w : world E),
    produces_rows n (stmt_ this) w ->
    (n < fuel)%nat ->
    exists u' w',
      forEachRow_loop fuel this (counted fn) ((c, u), w)
        = Some (Ok tt, (((c + n)%nat, u'), w')).
Proof.
  intros Hfn. induction n as [|n IH]; intros fuel c u w Hrows Hfuel;
    (destruct fuel as [|fuel]; [lia|]); simpl in *.
  - unfold mbind. rewrite step_spec. simpl. rewrite Hrows. simpl.
    exists u. eexists. rewrite Nat.add_0_r. reflexivity.
  - destruct Hrows as [Hrow Hrest].
    unfold mbind at 1. rewrite step_spec. simpl. rewrite Hrow. simpl.
    destruct (Hfn this u (snd (sqlite3_step E (stmt_ this) w))) as [u1 Hu1].
    unfold mbind at 1. rewrite (@counted_call _ fn this c _ _ _ _ _ Hu1).
    destruct (IH fuel (S c) u1 _ Hrest ltac:(lia)) as (u' & w' & Hloop).
    rewrite Hloop. exists u', w'.
    replace (c + S n)%nat with (S c + n)%nat by lia. reflexivity.
Qed.



(** From any state, [reset()] returns normally, the cursor is in [Ready]
    and the bound parameters are what they were. *)
Lemma reset_rewinds (Laws : EngineLaws E) U (this : Statement E)
    (s : U * world E) :
  exists w',
    reset this s = Some (Ok tt, (fst s, w')) /\
    cursor_of E (stmt_ this) w' = Ready /\
    bound_of E (stmt_ this) w' = bound_of E (stmt_ this) (snd s).
Proof.
  rewrite reset_spec. eexists. split; [reflexivity|]. split.
  - apply (reset_cursor Laws).
  - apply (reset_bound Laws).
Qed.

End Cursor.

(* ------------------------------------------------------------------ *)
(** * Row mapping and single-column extraction *)

Section Mapping.

Variable E : Engine.
Variables U T : Type.

Lemma mapRows_collect (fuel : nat) (this : Statement E)
    (mapper : Statement E -> M (U * world E) T) (s : U * world E) :
  mapRows fuel this mapper s =
    collect (forEachRow fuel this (push_mapped mapper) (([], fst s), snd s)).
Proof.
  unfold mapRows, collect.
  destruct (forEachRow fuel this (push_mapped mapper) ([], fst s, snd s))
    as [[[a | e |] [[results u'] w']]|]; reflexivity.
Qed.

Lemma push_mapped_call (mapper : Statement E -> M (U * world E) T)
    (row : Statement E) (res : list T) (u : U) (w : world E) :
  push_mapped mapper row ((res, u), w) =
    match mapper row (u, w) with
    | None => None
    | Some (Ok t, (u', w')) => Some (Ok tt, (((res ++ [t])%list, u'), w'))
    | Some (Throw e, (u', w')) => Some (Throw e, ((res, u'), w'))
    | Some (Terminate, (u', w')) => Some (Terminate, ((res, u'), w'))
    end.
Proof.
  unfold push_mapped, mbind, frame, get_local, put_local. simpl.
  destruct (mapper row (u, w)) as [[[t | e |] [u' w']]|]; reflexivity.
Qed.

(** The loop of [column] and the loop of [forEachRow] over the closure of
    [mapRows] go through the same steps with the same vector. *)
Lemma column_loop_is_mapped_loop
    (get : Statement E -> int -> M (U * world E) T)
    (this : Statement E) (col : int) :
  forall (fuel : nat) (res : list T) (u : U) (w : world E),
    collect (forEachRow_loop fuel this (push_mapped (fun row => get row col))
               ((res, u), w))
    = column_loop fuel this get col res (u, w).
Proof.
  induction fuel as [|fuel IH]; intros res u w; simpl; [reflexivity|].
  unfold mbind at 1 3. rewrite step_frame.
  destruct (step this (u, w)) as [[[more | e |] [u1 w1]]|]; try reflexivity.
  destruct more; [|reflexivity].
  unfold mbind at 1 2. rewrite push_mapped_call.
  destruct (get this col (u1, w1)) as [[[t | e |] [u2 w2]]|]; try reflexivity.
  apply IH.
Qed.

Lemma column_is_mapRows
    (get : Statement E -> int -> M (U * world E) T)
    (this : Statement E) (col : int) (fuel : nat) (s : U * world E) :
  (res <- column_loop fuel this get col [] ;; reset this ;; ret res) s
  = mapRows fuel this (fun row => get row col) s.
Proof.
  rewrite mapRows_collect, forEachRow_spec.
  destruct s as [u w]. simpl fst. simpl snd.
  unfold mbind at 1. rewrite <- column_loop_is_mapped_loop.
  destruct (forEachRow_loop fuel this (push_mapped (fun row => get row col))
              ([], u, w)) as [[[[] | e |] [[res u'] w']]|]; simpl; try reflexivity.
  unfold mbind. rewrite reset_spec. reflexivity.
Qed.

End Mapping.

Section Refinement.

Variable E : Engine.
Variable U : Type.

(** C6: for each of the three column types, [column<T>(index)] is
    [mapRows<T>] given the mapper that reads column [index] as [T] from the
    current row: for every statement, index, state and bound on the number
    of iterations, the two return the same sequence (same elements, same
    order), raise the same failure, and leave the same state (the cursor
    driven to the end, then reset). *)
Theorem column_refines_mapRows
    (this : Statement E) (colIndex : int) (fuel : nat) (s : U * world E) :
  column_int fuel this colIndex s
    = mapRows fuel this (fun row => getInt row colIndex) s /\
  column_double fuel this colIndex s
    = mapRows fuel this (fun row => getDouble row colIndex) s /\
  column_text fuel this colIndex s
    = mapRows fuel this (fun row => getText row colIndex) s.
Proof.
  unfold column_int, column_double, column_text.
  repeat split; apply column_is_mapRows.
Qed.

(** Both return: when the query yields [n] rows, [n + 1] iterations are
    enough for [column<T>] to return [n] elements, whatever the reader. *)
Lemma column_loop_returns T (get : Statement E -> int -> M (U * world E) T)
    (this : Statement E) (col : int) :
  (forall u w, exists x, get this col (u, w) = Some (Ok x, (u, w))) ->
  forall (n fuel : nat) (res : list T) (u : U) (w : world E),
    produces_rows n (stmt_ this) w ->
    (n < fuel)%nat ->
    exists xs w',
      column_loop fuel this get col res (u, w) = Some (Ok (res ++ xs)%list, (u, w')) /\
      List.length xs = n.
Proof.
  intros Hget. induction n as [|n IH]; intros fuel res u w Hrows Hfuel;
    (destruct fuel as [|fuel]; [lia|]); simpl in *.
  - unfold mbind. rewrite step_spec. simpl. rewrite Hrows. simpl.
    exists [], (snd (sqlite3_step E (stmt_ this) w)).
    rewrite app_nil_r. split; reflexivity.
  - destruct Hrows as [Hrow Hrest].
    unfold mbind at 1. rewrite step_spec. simpl. rewrite Hrow. simpl.
    destruct (Hget u (snd (sqlite3_step E (stmt_ this) w))) as [x Hx].
    unfold mbind at 1. rewrite Hx.
    destruct (IH fuel (res ++ [x])%list u _ Hrest ltac:(lia)) as (xs & w' & Hl & Hn).
    exists (x :: xs), w'. rewrite Hl, <- app_assoc. simpl.
    split; [reflexivity | now rewrite Hn].
Qed.

End Refinement.

(* ------------------------------------------------------------------ *)
(** * The cursor protocol on Mini *)

(** C7: for every engine that obeys the laws, every statement and every
    state, [reset()] returns normally with the cursor in [Ready] and the
    bound parameters unchanged.  Consequently, on [Mini]: bind [:v] to "a",
    step to completion, reset, bind [:v] to "b", step to completion, and
    the table holds the two rows "a" and "b" in that order. *)
Theorem reset_rewinds_and_keeps_bindings :
  (forall (E : Engine) (Laws : EngineLaws E) (U : Type)
          (this : Statement E) (s : U * world E),
      exists w',
        reset this s = Some (Ok tt, (fst s, w')) /\
        cursor_of E (stmt_ this) w' = Ready /\
        bound_of E (stmt_ this) w' = bound_of E (stmt_ this) (snd s)) /\
  (exists w,
      Run.insert_twice (tt, Run.insert_v) = Some (Ok tt, (tt, w)) /\
      Mini.tbl w = [(1, VText "a"); (2, VText "b")]).
Proof.
  split.
  - intros E Laws U this s. apply (reset_rewinds Laws).
  - eexists. split; reflexivity.
Qed.

(** On [Mini], an insert whose parameter is bound to "a" and that has run
    to completion is rewound by [reset()] and keeps the binding. *)
Lemma reset_rewinds_and_keeps_bindings_witness :
  cursor_of MiniEngine 1%nat Run.bound_and_done = Exhausted /\
  bound_of MiniEngine 1%nat Run.bound_and_done = [VText "a"] /\
  exists w',
    reset Run.q1 (tt, Run.bound_and_done) = Some (Ok tt, (tt, w')) /\
    cursor_of MiniEngine 1%nat w' = Ready /\
    bound_of MiniEngine 1%nat w' = [VText "a"].
Proof.
  split; [reflexivity|]. split; [reflexivity|].
  destruct (proj1 reset_rewinds_and_keeps_bindings MiniEngine Mini_laws unit
              Run.q1 (tt, Run.bound_and_done)) as (w' & Hreset & Hcur & Hbound).
  exists w'. split; [exact Hreset|]. split; [exact Hcur|].
  exact (eq_trans Hbound eq_refl).
Defined.





(** On [Mini], a failure of [step()] leaves [forEachRow] the same way: the
    engine's message is raised and [reset] is not reached. *)
Example failing_step_leaves_forEachRow :
  exists w',
    sqlite3_step MiniEngine 2%nat Run.duplicate_id = (SQLITE_CONSTRAINT, w') /\
    forEachRow 3 Run.q2 Run.idle_fn (tt, Run.duplicate_id)
      = Some (Throw (mkSQLiteException "UNIQUE constraint failed: t.id"), (tt, w')).
Proof. eexists. split; reflexivity. Qed.

(** The scenario of the specification: three rows with ids 1, 2, 3. *)
Example column_int_three_ids :
  exists w',
    column_int 4 Run.q1 0 (tt, Run.three_ids) = Some (Ok [1; 2; 3], (tt, w')) /\
    cursor_of MiniEngine 1%nat w' = Ready.
Proof. eexists. split; reflexivity. Qed.

(* ------------------------------------------------------------------ *)
(** * Ownership of the native handles: who releases what *)

Section OwnershipFacts.

Variable E : Engine.
Variable R : Lifecycle E.

Lemma Database_dtor_spec L (this : Database E) (s : L * world E) :
  Database_dtor R this s =
    Some (Ok tt,
          (fst s,
           if is_null_db R (db_ this) then snd s
           else snd (sqlite3_close R (db_ this) (snd s)))).
Proof.
  unfold Database_dtor. destruct (is_null_db R (db_ this)); simpl.
  - destruct s; reflexivity.
  - unfold mbind, call, ret.
    destruct (sqlite3_close R (db_ this) (snd s)); reflexivity.
Qed.

Lemma Statement_dtor_spec L (this : Statement E) (s : L * world E) :
  Statement_dtor R this s =
    Some (Ok tt,
          (fst s,
           if is_null_stmt R (stmt_ this) then snd s
           else snd (sqlite3_finalize R (stmt_ this) (snd s)))).
Proof.
  unfold Statement_dtor. destruct (is_null_stmt R (stmt_ this)); simpl.
  - destruct s; reflexivity.
  - unfold mbind, call, ret.
    destruct (sqlite3_finalize R (stmt_ this) (snd s)); reflexivity.
Qed.

Lemma assign_same T (this : nat) (v : T) (o : objects T) :
  assign this v o this = v.
Proof. unfold assign. rewrite Nat.eqb_refl. reflexivity. Qed.

Lemma assign_other T (this a : nat) (v : T) (o : objects T) :
  a <> this -> assign this v o a = o a.
Proof.
  intros H. unfold assign. apply Nat.eqb_neq in H. rewrite H. reflexivity.
Qed.

(** X1: a [Database] whose constructor returned owns the handle
    [sqlite3_open] produced, and destroying it hands exactly that handle to
    [sqlite3_close], once.  When [sqlite3_open] does not answer
    [SQLITE_OK], the constructor raises the engine's message for the handle
    it was given, and the engine is left as [sqlite3_open] left it: that
    handle is never closed. *)
Theorem database_closes_what_it_opened
    (this : nat) (filename : string) (o : objects (Database E)) (w : world E)
    (r : outcome unit) (s' : objects (Database E) * world E) :
  Database_ctor R this filename (o, w) = Some (r, s') ->
  let opened := sqlite3_open R filename w in
  let h := snd (fst opened) in
  snd s' = snd opened /\
  db_ (fst s' this) = h /\
  match r with
  | Ok _ =>
      fst (fst opened) = SQLITE_OK /\
      (is_null_db R h = false ->
       forall L (l : L) (w' : world E),
         Database_dtor R (fst s' this) (l, w') =
           Some (Ok tt, (l, snd (sqlite3_close R h w'))))
  | Throw e =>
      fst (fst opened) <> SQLITE_OK /\
      e = mkSQLiteException (sqlite3_errmsg E h (snd opened))
  | Terminate => False
  end.
Proof.
  unfold Database_ctor, mbind, call, peek, get_local, put_local, ret, throw.
  simpl.
  destruct (sqlite3_open R filename w) as [[rc h] w1] eqn:Hopen; simpl.
  destruct (rc =? SQLITE_OK) eqn:Hrc; simpl;
    intros H; inversion H; subst; simpl; rewrite assign_same;
    repeat split.
  - apply Z.eqb_eq. exact Hrc.
  - intros Hnn L l w'. rewrite Database_dtor_spec. simpl. rewrite Hnn.
    reflexivity.
  - apply Z.eqb_neq. exact Hrc.
Qed.

(** X2: move construction makes no engine call.  The new object holds what
    the source held and the source holds the null pointer, other objects
    are untouched; destroying the source afterwards does nothing, and
    destroying the new object does what destroying the source would have
    done before the move. *)
Theorem database_move_ctor_transfers
    (Null : NullLaws R) (this other : nat)
    (o : objects (Database E)) (w : world E) :
  exists o',
    Database_move_ctor R this other (o, w) = Some (Ok tt, (o', w)) /\
    db_ (o' other) = nullptr_db R /\
    (this <> other -> db_ (o' this) = db_ (o other)) /\
    (forall a, a <> this -> a <> other -> o' a = o a) /\
    (forall L (s : L * world E),
        Database_dtor R (o' other) s = Some (Ok tt, s) /\
        (this <> other ->
         Database_dtor R (o' this) s = Database_dtor R (o other) s)).
Proof.
  eexists. split; [reflexivity|]. simpl.
  split; [rewrite assign_same; reflexivity|].
  split; [intros Hne; rewrite assign_other, assign_same by exact Hne; reflexivity|].
  split; [intros a Ha1 Ha2; rewrite !assign_other by assumption; reflexivity|].
  intros L s. split.
  - rewrite Database_dtor_spec, assign_same. simpl.
    rewrite (null_db_is_null Null). destruct s; reflexivity.
  - intros Hne. rewrite assign_other, assign_same by exact Hne.
    rewrite !Database_dtor_spec. reflexivity.
Qed.

(** X3: move assignment first releases what the target held, as its
    destructor would; no other engine call is made.  Afterwards the source
    holds the null pointer.  The target holds what the source held when the
    two are distinct objects; when an object is move-assigned to itself, its
    connection has been closed and it is left holding the null pointer. *)
Theorem database_move_assign_releases_target
    (Null : NullLaws R) (this other : nat)
    (o : objects (Database E)) (w : world E) :
  exists o' w',
    Database_dtor R (o this) (o, w) = Some (Ok tt, (o, w')) /\
    Database_move_assign R this other (o, w) = Some (Ok tt, (o', w')) /\
    db_ (o' other) = nullptr_db R /\
    db_ (o' this) = (if Nat.eqb this other then nullptr_db R else db_ (o other)) /\
    (forall a, a <> this -> a <> other -> o' a = o a) /\
    (forall L (s : L * world E), Database_dtor R (o' other) s = Some (Ok tt, s)).
Proof.
  unfold Database_move_assign, mbind, get_local, put_local. simpl.
  unfold objects in *. rewrite !Database_dtor_spec. simpl.
  eexists. eexists. split; [reflexivity|]. split; [reflexivity|].
  split; [rewrite assign_same; reflexivity|].
  split.
  - destruct (Nat.eqb this other) eqn:Heq.
    + apply Nat.eqb_eq in Heq. subst other. rewrite assign_same. reflexivity.
    + apply Nat.eqb_neq in Heq.
      rewrite assign_other, assign_same by exact Heq. reflexivity.
  - split; [intros a Ha1 Ha2; rewrite !assign_other by assumption; reflexivity|].
    intros L s. rewrite Database_dtor_spec, assign_same. simpl.
    rewrite (null_db_is_null Null). destruct s; reflexivity.
Qed.

(** X4: the two moves of [Statement] behave as those of [Database], with
    [sqlite3_finalize] as the release: move construction makes no engine
    call; move assignment finalizes what the target held and nothing else;
    the source ends with the null pointer and its destruction does nothing;
    a statement move-assigned to itself has been finalized and holds the
    null pointer. *)
Theorem statement_moves_transfer
    (Null : NullLaws R) (this other : nat)
    (o : objects (Statement E)) (w : world E) :
  (exists o',
     Statement_move_ctor R this other (o, w) = Some (Ok tt, (o', w)) /\
     stmt_ (o' other) = nullptr_stmt R /\
     (this <> other -> stmt_ (o' this) = stmt_ (o other)) /\
     (forall L (s : L * world E), Statement_dtor R (o' other) s = Some (Ok tt, s))) /\
  (exists o' w',
     Statement_dtor R (o this) (o, w) = Some (Ok tt, (o, w')) /\
     Statement_move_assign R this other (o, w) = Some (Ok tt, (o', w')) /\
     stmt_ (o' other) = nullptr_stmt R /\
     stmt_ (o' this) =
       (if Nat.eqb this other then nullptr_stmt R else stmt_ (o other)) /\
     (forall L (s : L * world E), Statement_dtor R (o' other) s = Some (Ok tt, s))).
Proof.
  assert (Hnull : forall L (s : L * world E) o0,
             Statement_dtor R (assign other (mkStatement (nullptr_stmt R)) o0 other) s
             = Some (Ok tt, s)).
  { intros L s o0. rewrite Statement_dtor_spec, assign_same. simpl.
    rewrite (null_stmt_is_null Null). destruct s; reflexivity. }
  split.
  - eexists. split; [reflexivity|]. simpl.
    split; [rewrite assign_same; reflexivity|].
    split; [intros Hne; rewrite assign_other, assign_same by exact Hne; reflexivity|].
    intros L s. apply Hnull.
  - unfold Statement_move_assign, mbind, get_local, put_local. simpl.
    unfold objects in *. rewrite !Statement_dtor_spec. simpl.
    eexists. eexists. split; [reflexivity|]. split; [reflexivity|].
    split; [rewrite assign_same; reflexivity|].
    split; [|intros L s; apply Hnull].
    destruct (Nat.eqb this other) eqn:Heq.
    + apply Nat.eqb_eq in Heq. subst other. rewrite assign_same. reflexivity.
    + apply Nat.eqb_neq in Heq.
      rewrite assign_other, assign_same by exact Heq. reflexivity.
Qed.

End OwnershipFacts.

Lemma Ledger_null : NullLaws LedgerLife.
Proof. constructor; reflexivity. Qed.

(** On [Ledger]: opening "fleet.db" yields handle 1, and destroying the
    object records one close of handle 1. *)
Lemma database_closes_what_it_opened_witness :
  Database_ctor LedgerLife 0 "fleet.db" (Demo.two_owners, []) =
    Some (Ok tt,
          (assign 0%nat Demo.ledger_db Demo.two_owners,
           [Ledger.Opened "fleet.db" 1])) /\
  Database_dtor LedgerLife Demo.ledger_db (tt, [Ledger.Opened "fleet.db" 1]) =
    Some (Ok tt, (tt, [Ledger.Opened "fleet.db" 1; Ledger.Closed 1])).
Proof.
  assert (Hc : Database_ctor LedgerLife 0 "fleet.db" (Demo.two_owners, []) =
    Some (Ok tt,
          (assign 0%nat Demo.ledger_db Demo.two_owners,
           [Ledger.Opened "fleet.db" 1]))) by reflexivity.
  split; [exact Hc|].
  destruct (@database_closes_what_it_opened LedgerEngine LedgerLife _ _ _ _ _ _ Hc)
    as (_ & _ & _ & Hd).
  exact (Hd eq_refl unit tt [Ledger.Opened "fleet.db" 1]).
Defined.

(** On [Ledger]: a refused open raises, and no close is recorded. *)
Example database_refused_is_not_closed :
  Database_ctor LedgerLife 0 "/" (Demo.two_owners, []) =
    Some (Throw (mkSQLiteException "unable to open database file"),
          (assign 0%nat Demo.ledger_db Demo.two_owners, [Ledger.Opened "/" 1])).
Proof. reflexivity. Qed.

(** On [Ledger]: the object at address 2 is move-constructed from the
    owner of handle 1. *)
Lemma database_move_ctor_transfers_witness :
  exists o',
    Database_move_ctor LedgerLife 2 0 (Demo.two_owners, []) = Some (Ok tt, (o', [])) /\
    db_ (o' 0%nat) = 0%nat /\
    db_ (o' 2%nat) = 1%nat.
Proof.
  destruct (@database_move_ctor_transfers LedgerEngine LedgerLife Ledger_null
              2 0 Demo.two_owners []) as (o' & Hrun & Hsrc & Hnew & _).
  exists o'. split; [exact Hrun|]. split; [exact Hsrc|].
  rewrite Hnew by discriminate. reflexivity.
Defined.

(** On [Ledger]: the owner of handle 1 is assigned the owner of handle 2
    (handle 1 is closed), and then itself (handle 2 is closed). *)
Lemma database_move_assign_releases_target_witness :
  (exists o',
     Database_move_assign LedgerLife 0 1 (Demo.two_owners, []) =
       Some (Ok tt, (o', [Ledger.Closed 1])) /\
     db_ (o' 0%nat) = 2%nat /\ db_ (o' 1%nat) = 0%nat) /\
  (exists o',
     Database_move_assign LedgerLife 1 1 (Demo.two_owners, []) =
       Some (Ok tt, (o', [Ledger.Closed 2])) /\
     db_ (o' 1%nat) = 0%nat).
Proof.
  split.
  - destruct (@database_move_assign_releases_target LedgerEngine LedgerLife
                Ledger_null 0 1 Demo.two_owners [])
      as (o' & w' & Hd & Hrun & Hsrc & Hthis & _).
    inversion Hd; subst w'.
    exists o'. split; [exact Hrun|]. split; [exact Hthis | exact Hsrc].
  - destruct (@database_move_assign_releases_target LedgerEngine LedgerLife
                Ledger_null 1 1 Demo.two_owners [])
      as (o' & w' & Hd & Hrun & Hsrc & _).
    inversion Hd; subst w'.
    exists o'. split; [exact Hrun | exact Hsrc].
Defined.

(** On [Ledger]: statement 1 is assigned statement 2. *)
Lemma statement_moves_transfer_witness :
  exists o',
    Statement_move_assign LedgerLife 0 1 (Demo.two_statements, []) =
      Some (Ok tt, (o', [Ledger.Finalized 1])) /\
    stmt_ (o' 0%nat) = 2%nat /\ stmt_ (o' 1%nat) = 0%nat.
Proof.
  destruct (proj2 (@statement_moves_transfer LedgerEngine LedgerLife Ledger_null
                     0 1 Demo.two_statements []))
    as (o' & w' & Hd & Hrun & Hsrc & Hthis & _).
  inversion Hd; subst w'.
  exists o'. split; [exact Hrun|]. split; [exact Hthis | exact Hsrc].
Defined.

(* ------------------------------------------------------------------ *)
(** * Rows in cursor order: what mapRows and column return *)

Section RowsFacts.

Variable E : Engine.
Variable U : Type.

Lemma mapped_loop_order T (mapper : Statement E -> M (U * world E) T)
    (this : Statement E) (f : world E -> T) :
  reads mapper this f ->
  forall (n fuel : nat) (res : list T) (u : U) (w : world E),
    produces_rows n (stmt_ this) w ->
    (n < fuel)%nat ->
    forEachRow_loop fuel this (push_mapped mapper) ((res, u), w) =
      Some (Ok tt,
            (((res ++ map f (visited n (stmt_ this) w))%list, u),
             exhausted n (stmt_ this) w)).
Proof.
  intros Hreads. induction n as [|n IH]; intros fuel res u w Hrows Hfuel;
    (destruct fuel as [|fuel]; [lia|]); simpl in *.
  - unfold mbind. rewrite step_spec. simpl. rewrite Hrows. simpl.
    rewrite app_nil_r. reflexivity.
  - destruct Hrows as [Hrow Hrest].
    unfold mbind at 1. rewrite step_spec. simpl. rewrite Hrow. simpl.
    unfold mbind at 1. rewrite push_mapped_call, Hreads.
    rewrite (IH fuel (res ++ [f (snd (sqlite3_step E (stmt_ this) w))])%list u _
               Hrest ltac:(lia)).
    rewrite <- app_assoc. reflexivity.
Qed.

Lemma visited_length (st : sqlite3_stmt E) (n : nat) :
  forall w, List.length (visited n st w) = n.
Proof. induction n as [|n IH]; intros w; simpl; [reflexivity | now rewrite IH]. Qed.

Lemma mapRows_of_reader T
    (mapper : Statement E -> M (U * world E) T)
    (this : Statement E) (f : world E -> T)
    (n fuel : nat) (u : U) (w : world E) :
  produces_rows n (stmt_ this) w ->
  reads mapper this f ->
  (n < fuel)%nat ->
  mapRows fuel this mapper (u, w) =
    Some (Ok (map f (visited n (stmt_ this) w)),
          (u, snd (sqlite3_reset E (stmt_ this) (exhausted n (stmt_ this) w)))).
Proof.
  intros Hrows Hreads Hfuel.
  rewrite mapRows_collect, forEachRow_spec. simpl.
  rewrite (@mapped_loop_order T mapper this f Hreads n fuel [] u w Hrows Hfuel).
  reflexivity.
Qed.

(** X5: when the query yields exactly [n] rows and the mapper only reads
    the row it is given, [mapRows] returns normally the [n] values of the
    mapper on the successive rows, in the order the cursor reaches them;
    the caller memory is unchanged and the statement has been reset after
    the step that found no more rows. *)
Theorem mapRows_in_cursor_order T
    (mapper : Statement E -> M (U * world E) T)
    (this : Statement E) (f : world E -> T)
    (n fuel : nat) (u : U) (w : world E) :
  produces_rows n (stmt_ this) w ->
  reads mapper this f ->
  (n < fuel)%nat ->
  mapRows fuel this mapper (u, w) =
    Some (Ok (map f (visited n (stmt_ this) w)),
          (u, snd (sqlite3_reset E (stmt_ this) (exhausted n (stmt_ this) w)))) /\
  List.length (map f (visited n (stmt_ this) w)) = n.
Proof.
  intros Hrows Hreads Hfuel. split.
  - apply mapRows_of_reader; assumption.
  - rewrite length_map. apply visited_length.
Qed.

(** X6: when the query yields exactly [n] rows, each specialisation of
    [column] returns normally the engine's reading of the column on every
    row, in cursor order: [sqlite3_column_int] for [int],
    [sqlite3_column_double] for [double], and for [std::string] the text of
    [sqlite3_column_text] with the null pointer turned into the empty
    string.  The result has [n] elements and the statement has been
    reset. *)
Theorem column_in_cursor_order
    (this : Statement E) (colIndex : int) (n fuel : nat) (u : U) (w : world E) :
  produces_rows n (stmt_ this) w ->
  (n < fuel)%nat ->
  let rows := visited n (stmt_ this) w in
  let s' := (u, snd (sqlite3_reset E (stmt_ this) (exhausted n (stmt_ this) w))) in
  List.length rows = n /\
  column_int fuel this colIndex (u, w) =
    Some (Ok (map (sqlite3_column_int E (stmt_ this) colIndex) rows), s') /\
  column_double fuel this colIndex (u, w) =
    Some (Ok (map (sqlite3_column_double E (stmt_ this) colIndex) rows), s') /\
  column_text fuel this colIndex (u, w) =
    Some (Ok (map (fun w' =>
                     match sqlite3_column_text E (stmt_ this) colIndex w' with
                     | Some t => t
                     | None => ""
                     end) rows), s').
Proof.
  intros Hrows Hfuel rows s'. split.
  - apply visited_length.
  - unfold column_int, column_double, column_text.
    rewrite !column_is_mapRows.
    repeat split; apply mapRows_of_reader; auto; intros u' w'; reflexivity.
Qed.

(** X7: [forEachRow] has no bound of its own.  From a state that satisfies
    an invariant under which [step()] finds a row and the callback returns
    normally into the invariant again, it never returns, however many
    iterations are allowed. *)
Theorem forEachRow_never_returns
    (fn : Statement E -> M (U * world E) unit) (this : Statement E)
    (Inv : U * world E -> Prop) :
  (forall s, Inv s ->
     exists s1 s2,
       step this s = Some (Ok true, s1) /\
       fn this s1 = Some (Ok tt, s2) /\
       Inv s2) ->
  forall (fuel : nat) (s : U * world E),
    Inv s -> forEachRow fuel this fn s = None.
Proof.
  intros Hinv fuel s Hs. rewrite forEachRow_spec.
  assert (Hloop : forEachRow_loop fuel this fn s = None).
  { revert s Hs. induction fuel as [|fuel IH]; intros s Hs; simpl; [reflexivity|].
    destruct (Hinv s Hs) as (s1 & s2 & Hstep & Hfn & Hs2).
    unfold mbind at 1. rewrite Hstep. unfold mbind at 1. rewrite Hfn.
    apply IH. exact Hs2. }
  rewrite Hloop. reflexivity.
Qed.

(** X8: a named bind is the positional bind at the index the engine
    resolves the name to, and nothing at all when that index is 0; in
    either case it returns normally, whatever the engine answers to the
    bind. *)
Theorem named_bind_is_positional
    (this : Statement E) (name : string) (i : int) (d : double) (t : string)
    (s : U * world E) :
  let idx := sqlite3_bind_parameter_index E (stmt_ this) name (snd s) in
  bind_name_int this name i s
    = (if idx =? 0 then Some (Ok tt, s) else bind_int this idx i s) /\
  bind_name_double this name d s
    = (if idx =? 0 then Some (Ok tt, s) else bind_double this idx d s) /\
  bind_name_text this name t s
    = (if idx =? 0 then Some (Ok tt, s) else bind_text this idx t s) /\
  (exists s1, bind_name_int this name i s = Some (Ok tt, s1)) /\
  (exists s2, bind_name_double this name d s = Some (Ok tt, s2)) /\
  (exists s3, bind_name_text this name t s = Some (Ok tt, s3)).
Proof.
  intros idx.
  assert (Hi : bind_name_int this name i s
    = (if idx =? 0 then Some (Ok tt, s) else bind_int this idx i s)).
  { unfold bind_name_int, mbind at 1, peek. fold idx.
    destruct (idx =? 0); reflexivity. }
  assert (Hd : bind_name_double this name d s
    = (if idx =? 0 then Some (Ok tt, s) else bind_double this idx d s)).
  { unfold bind_name_double, mbind at 1, peek. fold idx.
    destruct (idx =? 0); reflexivity. }
  assert (Ht : bind_name_text this name t s
    = (if idx =? 0 then Some (Ok tt, s) else bind_text this idx t s)).
  { unfold bind_name_text, mbind at 1, peek. fold idx.
    destruct (idx =? 0); reflexivity. }
  split; [exact Hi|]. split; [exact Hd|]. split; [exact Ht|].
  rewrite Hi, Hd, Ht.
  destruct (idx =? 0); [repeat split; exists s; reflexivity|].
  split; [|split].
  - exists (fst s, snd (sqlite3_bind_int E (stmt_ this) idx i (snd s))).
    unfold bind_int, mbind, call, ret.
    destruct (sqlite3_bind_int E (stmt_ this) idx i (snd s)); reflexivity.
  - exists (fst s, snd (sqlite3_bind_double E (stmt_ this) idx d (snd s))).
    unfold bind_double, mbind, call, ret.
    destruct (sqlite3_bind_double E (stmt_ this) idx d (snd s)); reflexivity.
  - exists (fst s, snd (sqlite3_bind_text E (stmt_ this) idx t (snd s))).
    unfold bind_text, mbind, call, ret.
    destruct (sqlite3_bind_text E (stmt_ this) idx t (snd s)); reflexivity.
Qed.

Lemma mapped_loop_failure T (mapper : Statement E -> M (U * world E) T)
    (this : Statement E) (e : SQLiteException) (final : U * world E) :
  forall (k fuel : nat) (res : list T) (u : U) (w : world E),
    raises_on_row k mapper this e final u w ->
    (k < fuel)%nat ->
    exists res',
      forEachRow_loop fuel this (push_mapped mapper) ((res, u), w) =
        Some (Throw e, ((res', fst final), snd final)).
Proof.
  induction k as [|k IH]; intros fuel res u w Hk Hfuel;
    (destruct fuel as [|fuel]; [lia|]); simpl in *;
    destruct Hk as [Hrow Hk];
    unfold mbind at 1; rewrite step_spec; simpl; rewrite Hrow; simpl;
    unfold mbind at 1; rewrite push_mapped_call.
  - rewrite Hk. destruct final as [u' w']. exists res. reflexivity.
  - destruct Hk as [[t Ht] Hrest]. rewrite Ht.
    apply (IH fuel _ u _ Hrest). lia.
Qed.

(** X12: [mapRows] stops at the first failure of the mapper.  When the
    mapper returns normally on the first [k] rows and raises on the next
    one, [mapRows] raises the same exception and returns no vector; the
    state is the one the mapper left, so the remaining rows are never
    stepped to and the statement is not reset. *)
Theorem mapRows_stops_at_first_failure T
    (mapper : Statement E -> M (U * world E) T) (this : Statement E)
    (e : SQLiteException) (final : U * world E)
    (k fuel : nat) (u : U) (w : world E) :
  raises_on_row k mapper this e final u w ->
  (k < fuel)%nat ->
  mapRows fuel this mapper (u, w) = Some (Throw e, final).
Proof.
  intros Hk Hfuel.
  destruct (@mapped_loop_failure T mapper this e final k fuel [] u w Hk Hfuel)
    as [res' Hloop].
  rewrite mapRows_collect, forEachRow_spec. simpl. rewrite Hloop.
  destruct final; reflexivity.
Qed.

End RowsFacts.

(** On [Mini], the mapper of example.cpp over the rows "a" and "b". *)
Lemma mapRows_in_cursor_order_witness :
  produces_rows 2 (stmt_ Run.q1) Run.two_rows /\
  exists w',
    mapRows 3 Run.q1 Demo.to_player (tt, Run.two_rows) =
      Some (Ok [Demo.mkPlayer 1 "a"; Demo.mkPlayer 2 "b"], (tt, w')).
Proof.
  assert (Hrows : produces_rows 2 (stmt_ Run.q1) Run.two_rows)
    by (repeat split; reflexivity).
  assert (Hreads : reads (U := unit) Demo.to_player Run.q1
                      (Demo.player_of (E := MiniEngine) (stmt_ Run.q1)))
    by (intros u w; reflexivity).
  split; [exact Hrows|].
  eexists. etransitivity.
  - apply (@mapRows_in_cursor_order MiniEngine unit _ Demo.to_player Run.q1
             (Demo.player_of (E := MiniEngine) (stmt_ Run.q1)) 2 3 tt Run.two_rows
             Hrows Hreads).
    repeat constructor.
  - reflexivity.
Defined.

(** On [Mini], the ids of three rows. *)
Lemma column_in_cursor_order_witness :
  produces_rows 3 (stmt_ Run.q1) Run.three_ids /\
  exists w',
    column_int 4 Run.q1 0 (tt, Run.three_ids) = Some (Ok [1; 2; 3], (tt, w')).
Proof.
  assert (Hrows : produces_rows 3 (stmt_ Run.q1) Run.three_ids)
    by (repeat split; reflexivity).
  split; [exact Hrows|].
  destruct (@column_in_cursor_order MiniEngine unit Run.q1 0 3 4 tt Run.three_ids
              Hrows ltac:(repeat constructor)) as (_ & Hint & _).
  eexists. etransitivity; [exact Hint | reflexivity].
Defined.

(** On [Mini], three rows and a mapper that refuses the second id: the
    statement is left on the second row. *)
Lemma mapRows_stops_at_first_failure_witness :
  exists w',
    mapRows 5 Run.q1 Demo.picky (tt, Run.three_ids) =
      Some (Throw (mkSQLiteException "unexpected id"), (tt, w')) /\
    cursor_of MiniEngine 1%nat w' = HasRow /\
    sqlite3_column_int MiniEngine 1%nat 0 w' = 2.
Proof.
  eexists. split; [|split].
  - apply (@mapRows_stops_at_first_failure MiniEngine unit _ Demo.picky Run.q1
             (mkSQLiteException "unexpected id")
             (tt, snd (Mini.step 1%nat (snd (Mini.step 1%nat Run.three_ids))))
             1 5 tt Run.three_ids).
    + split; [reflexivity|]. split; [eexists; reflexivity|].
      split; reflexivity.
    + repeat constructor.
  - reflexivity.
  - reflexivity.
Defined.

(** On [Mini], a callback that rewinds the statement: every pass finds the
    first row again. *)
Lemma forEachRow_never_returns_witness :
  step Run.q1 (tt, Run.two_rows) = Some (Ok true, (tt, Run.on_first_row)) /\
  Demo.resetting_fn Run.q1 (tt, Run.on_first_row) = Some (Ok tt, (tt, Run.two_rows)) /\
  forEachRow 1000 Run.q1 Demo.resetting_fn (tt, Run.two_rows) = None.
Proof.
  split; [reflexivity|]. split; [reflexivity|].
  apply (@forEachRow_never_returns MiniEngine unit Demo.resetting_fn Run.q1
           (fun s => s = (tt, Run.two_rows))).
  - intros s ->. exists (tt, Run.on_first_row), (tt, Run.two_rows).
    repeat split; reflexivity.
  - reflexivity.
Defined.

(* ------------------------------------------------------------------ *)
(** * The transaction scope over a sequence of calls *)

Section ScopeFacts.

Variable E : Engine.

Lemma invoke_spec (c : member) (t : Transaction E) (w : world E) :
  invoke c (t, w) =
    let sql := match c with Commit => "COMMIT;" | Rollback => "ROLLBACK;" end in
    let r := sqlite3_exec E (db_ (tx_db_ t)) sql w in
    if fst (fst r) =? SQLITE_OK
    then Some (Ok tt, (mkTransaction (tx_db_ t) false, snd r))
    else Some (Throw (mkSQLiteException (error_text (snd (fst r)))), (t, snd r)).
Proof.
  destruct c; simpl; unfold Transaction_commit, Transaction_rollback;
    apply resolve_spec.
Qed.

(** X9: [commit()] and [rollback()] do not look at the pending flag.
    Whatever calls a caller makes on a scope, in whatever order, catching
    what they raise, the engine receives every one of them, exactly as it
    would from a pending scope; the scope keeps its connection; and the
    flag is never set again: a scope that was resolved stays resolved, so
    its destruction is silent even after a later call has raised. *)
Theorem scope_calls_are_not_guarded
    (cs : list member) (db : Database E) (b : bool) (w : world E) :
  let s' := replay cs (mkTransaction db b, w) in
  tx_db_ (fst s') = db /\
  snd s' = snd (replay cs (mkTransaction db true, w)) /\
  (active_ (fst s') = true -> b = true) /\
  (b = false -> Transaction_dtor s' = Some (Ok tt, s')).
Proof.
  assert (Hgen : forall cs b w,
             tx_db_ (fst (replay cs (mkTransaction db b, w))) = db /\
             snd (replay cs (mkTransaction db b, w))
               = snd (replay cs (mkTransaction db true, w)) /\
             (active_ (fst (replay cs (mkTransaction db b, w))) = true -> b = true)).
  { clear. induction cs as [|c cs IH]; intros b w; simpl.
    - repeat split; auto.
    - rewrite !invoke_spec. simpl.
      destruct (fst (fst (sqlite3_exec E (db_ db)
                  match c with Commit => "COMMIT;" | Rollback => "ROLLBACK;" end w))
                =? SQLITE_OK).
      + destruct (IH false
                    (snd (sqlite3_exec E (db_ db)
                       match c with Commit => "COMMIT;" | Rollback => "ROLLBACK;" end w)))
          as (H1 & H2 & H3).
        split; [exact H1|]. split; [reflexivity|].
        intros Ha. apply H3 in Ha. discriminate Ha.
      + apply IH. }
  intros s'. subst s'.
  destruct (Hgen cs b w) as (H1 & H2 & H3).
  split; [exact H1|]. split; [exact H2|]. split; [exact H3|].
  intros Hb.
  destruct (replay cs (mkTransaction db b, w)) as [t' w'] eqn:Hr. simpl in *.
  apply dtor_resolved.
  destruct (active_ t') eqn:Ha; [|reflexivity].
  rewrite (H3 eq_refl) in Hb. discriminate Hb.
Qed.

End ScopeFacts.

(** On [Mini]: a scope commits, and the caller calls [commit()] again and
    then [rollback()]: both reach the engine and are refused, and the
    destruction of the scope is silent. *)
Example second_commit_reaches_engine :
  let opened := Run.after (Transaction_ctor Run.db) Run.two_rows in
  exists w1 w2,
    Transaction_commit (Run.pending, opened) =
      Some (Ok tt, (mkTransaction Run.db false, w1)) /\
    Transaction_commit (mkTransaction Run.db false, w1) =
      Some (Throw (mkSQLiteException "cannot commit - no transaction is active"),
            (mkTransaction Run.db false, w2)) /\
    Transaction_rollback (mkTransaction Run.db false, w2) =
      Some (Throw (mkSQLiteException "cannot rollback - no transaction is active"),
            (mkTransaction Run.db false,
             Mini.set_err "cannot rollback - no transaction is active" w2)) /\
    Transaction_dtor (replay [Commit; Commit; Rollback] (Run.pending, opened))
      = Some (Ok tt, replay [Commit; Commit; Rollback] (Run.pending, opened)).
Proof.
  intros opened. eexists. eexists.
  split; [reflexivity|]. split; [reflexivity|]. split; reflexivity.
Qed.

(* ------------------------------------------------------------------ *)
(** * The transactional block of example.cpp *)

Section BlockFacts.

Variable E : Engine.
Variable R : Lifecycle E.

Lemma keeps_ret L A (a : A) : keeps_memory (L := L) (E := E) (ret a).
Proof. intros s r s' H. inversion H; subst. split; [reflexivity | discriminate]. Qed.

Lemma keeps_seq L A B (m : M (L * world E) A) (k : A -> M (L * world E) B) :
  keeps_memory m -> (forall a, keeps_memory (k a)) -> keeps_memory (mbind m k).
Proof.
  intros Hm Hk s r s'. unfold mbind.
  destruct (m s) as [[[a | e |] s1]|] eqn:Hms; try discriminate.
  - intros H. destruct (Hm _ _ _ Hms) as [H1 _].
    destruct (Hk a _ _ _ H) as [H2 H3]. split; [congruence | exact H3].
  - intros H; inversion H; subst. destruct (Hm _ _ _ Hms) as [H1 _].
    split; [exact H1 | discriminate].
  - destruct (Hm _ _ _ Hms) as [_ Hn]. congruence.
Qed.

(** Either the first computation returns and the second goes on from
    there, or it raises and that is the outcome. *)
Lemma seq_cases L A B (m : M (L * world E) A) (k : A -> M (L * world E) B)
    (s s' : L * world E) (r : outcome B) :
  keeps_memory m ->
  mbind m k s = Some (r, s') ->
  (exists a s1, m s = Some (Ok a, s1) /\ fst s1 = fst s /\ k a s1 = Some (r, s')) \/
  (exists e, r = Throw e /\ fst s' = fst s).
Proof.
  intros Hm. unfold mbind.
  destruct (m s) as [[[a | e |] s1]|] eqn:Hms; try discriminate.
  - intros H. left. exists a, s1. destruct (Hm _ _ _ Hms) as [H1 _]. auto.
  - intros H; inversion H; subst. right. exists e.
    destruct (Hm _ _ _ Hms) as [H1 _]. auto.
  - destruct (Hm _ _ _ Hms) as [_ Hn]. congruence.
Qed.

Lemma keeps_step L (this : Statement E) : keeps_memory (L := L) (step this).
Proof.
  intros s r s'. rewrite step_spec. simpl.
  destruct (fst (sqlite3_step E (stmt_ this) (snd s)) =? SQLITE_ROW);
    [intros H; inversion H; split; [reflexivity | discriminate]|].
  destruct (fst (sqlite3_step E (stmt_ this) (snd s)) =? SQLITE_DONE);
    intros H; inversion H; split; reflexivity || discriminate.
Qed.

Lemma keeps_reset L (this : Statement E) : keeps_memory (L := L) (reset this).
Proof.
  intros s r s'. rewrite reset_spec. intros H; inversion H.
  split; [reflexivity | discriminate].
Qed.

Lemma keeps_bind_name_text L (this : Statement E) (name val : string) :
  keeps_memory (L := L) (bind_name_text this name val).
Proof.
  intros s r s'. unfold bind_name_text, mbind, peek, call, ret. simpl.
  destruct (negb (sqlite3_bind_parameter_index E (stmt_ this) name (snd s) =? 0)).
  - destruct (sqlite3_bind_text E (stmt_ this) _ val (snd s)).
    intros H; inversion H. split; [reflexivity | discriminate].
  - intros H; inversion H. split; [reflexivity | discriminate].
Qed.

Lemma keeps_step_all L (this : Statement E) (fuel : nat) :
  keeps_memory (L := L) (step_all fuel this).
Proof.
  induction fuel as [|fuel IH]; simpl.
  - intros s r s'. discriminate.
  - apply keeps_seq; [apply keeps_step|].
    intros [|]; [exact IH | apply keeps_ret].
Qed.

Lemma keeps_prepare L (db : Database E) (sql : string) :
  keeps_memory (L := L) (Database_prepare db sql).
Proof.
  intros s r s'.
  unfold Database_prepare, Statement_ctor, mbind, call, peek, ret, throw. simpl.
  destruct (sqlite3_prepare_v2 E (db_ db) sql (snd s)) as [[rc st] w1]. simpl.
  destruct (negb (rc =? SQLITE_OK));
    intros H; inversion H; split; reflexivity || discriminate.
Qed.

Lemma on_txn_commit U (t : Transaction E) (u : U) (w : world E) r s' :
  on_txn (U := U) (@Transaction_commit E) ((t, u), w) = Some (r, s') ->
  match r with
  | Ok _ =>
      fst (fst (sqlite3_exec E (db_ (tx_db_ t)) "COMMIT;" w)) = SQLITE_OK /\
      s' = ((mkTransaction (tx_db_ t) false, u),
            snd (sqlite3_exec E (db_ (tx_db_ t)) "COMMIT;" w))
  | Throw _ => fst s' = (t, u)
  | Terminate => False
  end.
Proof.
  unfold on_txn, Transaction_commit. simpl. rewrite resolve_spec. simpl.
  destruct (fst (fst (sqlite3_exec E (db_ (tx_db_ t)) "COMMIT;" w)) =? SQLITE_OK)
    eqn:Hrc; intros H; inversion H; subst; simpl.
  - apply Z.eqb_eq in Hrc. auto.
  - reflexivity.
Qed.

(** What the statements between [prepare] and the end of the block do to
    the scope: they resolve it by an accepted [COMMIT;], or they raise and
    leave it as it was. *)
Lemma inserts_outcome U (stmt : Statement E) (fuel : nat)
    (t : Transaction E) (u : U) (w : world E) r s' :
  (bind_name_text stmt ":name" "Alice" ;;
   step_all fuel stmt ;;
   reset stmt ;;
   bind_name_text stmt ":name" "Bob" ;;
   step_all fuel stmt ;;
   on_txn (@Transaction_commit E)) ((t, u), w) = Some (r, s') ->
  match r with
  | Ok _ =>
      exists wc,
        fst (fst (sqlite3_exec E (db_ (tx_db_ t)) "COMMIT;" wc)) = SQLITE_OK /\
        s' = ((mkTransaction (tx_db_ t) false, u),
              snd (sqlite3_exec E (db_ (tx_db_ t)) "COMMIT;" wc))
  | Throw _ => fst s' = (t, u)
  | Terminate => False
  end.
Proof.
  intros H.
  apply seq_cases in H; [|apply keeps_bind_name_text].
  destruct H as [(a1 & s1 & _ & Hf1 & H) | (e & -> & Hf)]; [|exact Hf].
  apply seq_cases in H; [|apply keeps_step_all].
  destruct H as [(a2 & s2 & _ & Hf2 & H) | (e & -> & Hf)]; [|simpl in *; congruence].
  apply seq_cases in H; [|apply keeps_reset].
  destruct H as [(a3 & s3 & _ & Hf3 & H) | (e & -> & Hf)]; [|simpl in *; congruence].
  apply seq_cases in H; [|apply keeps_bind_name_text].
  destruct H as [(a4 & s4 & _ & Hf4 & H) | (e & -> & Hf)]; [|simpl in *; congruence].
  apply seq_cases in H; [|apply keeps_step_all].
  destruct H as [(a5 & s5 & _ & Hf5 & H) | (e & -> & Hf)]; [|simpl in *; congruence].
  assert (Hs5 : s5 = ((t, u), snd s5)).
  { destruct s5 as [l5 w5]. simpl in *. f_equal. congruence. }
  rewrite Hs5 in H. apply on_txn_commit in H.
  destruct r as [[] | e |]; auto.
  destruct H as [Hok ->]. exists (snd s5). auto.
Qed.

(** X10: the transactional block of example.cpp leaves the caller memory
    alone and ends in one of four ways.  It returns normally: the engine
    accepted [COMMIT;], after which only the statement's destructor ran (no
    rollback).  It raises because [BEGIN;] was refused: nothing else was
    done.  It raises for any other reason (the statement does not compile,
    a step fails, the commit is refused): the last thing the engine did is
    a [ROLLBACK;] it accepted.  Or that rollback was refused, and the
    program is terminated. *)
Theorem insert_players_commits_or_rolls_back U
    (fuel : nat) (db : Database E) (s s' : U * world E) (r : outcome unit) :
  insert_players R fuel db s = Some (r, s') ->
  fst s' = fst s /\
  match r with
  | Ok _ =>
      exists wc stmt,
        fst (fst (sqlite3_exec E (db_ db) "COMMIT;" wc)) = SQLITE_OK /\
        Statement_dtor R stmt (fst s, snd (sqlite3_exec E (db_ db) "COMMIT;" wc))
          = Some (Ok tt, s')
  | Throw _ =>
      (fst (fst (sqlite3_exec E (db_ db) "BEGIN;" (snd s))) <> SQLITE_OK /\
       snd s' = snd (sqlite3_exec E (db_ db) "BEGIN;" (snd s))) \/
      (exists wk,
         fst (fst (sqlite3_exec E (db_ db) "ROLLBACK;" wk)) = SQLITE_OK /\
         snd s' = snd (sqlite3_exec E (db_ db) "ROLLBACK;" wk))
  | Terminate =>
      exists wk,
        fst (fst (sqlite3_exec E (db_ db) "ROLLBACK;" wk)) <> SQLITE_OK /\
        snd s' = snd (sqlite3_exec E (db_ db) "ROLLBACK;" wk)
  end.
Proof.
  unfold insert_players. unfold mbind at 1.
  destruct (Transaction_ctor db s) as [[[txn | e |] s1]|] eqn:Hctor;
    try discriminate.
  - (* the scope exists *)
    apply ctor_spec in Hctor. destruct Hctor as (-> & Hf1 & m & Hbegin).
    unfold with_transaction.
    match goal with
    | |- match ?body ?st with _ => _ end = _ -> _ =>
        destruct (body st) as [[rb [[t' u'] w']]|] eqn:Hbody; [|discriminate]
    end.
    assert (Hshape :
      match rb with
      | Ok _ =>
          exists wc stmt,
            fst (fst (sqlite3_exec E (db_ db) "COMMIT;" wc)) = SQLITE_OK /\
            Statement_dtor R stmt
              ((mkTransaction db false, fst s1),
               snd (sqlite3_exec E (db_ db) "COMMIT;" wc))
              = Some (Ok tt, ((t', u'), w'))
      | Throw _ => (t', u') = (mkTransaction db true, fst s1)
      | Terminate => False
      end).
    { apply seq_cases in Hbody; [|apply keeps_prepare].
      destruct Hbody as [(stmt & s2 & _ & Hf2 & Hbody) | (e & -> & Hf)];
        [|exact Hf].
      unfold with_statement in Hbody.
      match type of Hbody with
      | match ?inner ?st with _ => _ end = _ =>
          destruct (inner st) as [[ri s3]|] eqn:Hinner; [|discriminate]
      end.
      assert (Hs2 : s2 = ((mkTransaction db true, fst s1), snd s2)).
      { destruct s2 as [l2 w2]. simpl in *. f_equal. exact Hf2. }
      rewrite Hs2 in Hinner. apply inserts_outcome in Hinner. simpl in Hinner.
      rewrite Statement_dtor_spec in Hbody.
      destruct ri as [[] | e |]; [| |contradiction].
      - destruct Hinner as (wc & Hok & ->).
        inversion Hbody; subst. exists wc, stmt. split; [exact Hok|].
        rewrite Statement_dtor_spec. reflexivity.
      - inversion Hbody; subst. exact Hinner. }
    destruct rb as [[] | e |]; [| |contradiction].
    + (* committed *)
      destruct Hshape as (wc & stmt & Hok & Hd).
      assert (Ht' : t' = mkTransaction db false /\ u' = fst s1).
      { rewrite Statement_dtor_spec in Hd. inversion Hd; subst. auto. }
      destruct Ht' as [-> ->].
      rewrite dtor_resolved by reflexivity.
      intros H; inversion H; subst; simpl. split; [exact Hf1|].
      exists wc, stmt. split; [exact Hok|].
      rewrite Statement_dtor_spec in *. inversion Hd; subst.
      rewrite <- Hf1. reflexivity.
    + (* raised inside the scope *)
      inversion Hshape; subst t' u'.
      rewrite dtor_pending by reflexivity. simpl.
      destruct (fst (fst (sqlite3_exec E (db_ db) "ROLLBACK;" w')) =? SQLITE_OK)
        eqn:Hrc; intros H; inversion H; subst; simpl; (split; [exact Hf1|]).
      * right. exists w'. apply Z.eqb_eq in Hrc. auto.
      * exists w'. apply Z.eqb_neq in Hrc. auto.
  - (* BEGIN was refused *)
    intros H; inversion H; subst.
    unfold Transaction_ctor, mbind in Hctor. rewrite execute_spec in Hctor.
    simpl in Hctor.
    destruct (fst (fst (sqlite3_exec E (db_ db) "BEGIN;" (snd s))) =? SQLITE_OK)
      eqn:Hrc; inversion Hctor; subst; simpl.
    split; [reflexivity|]. left. apply Z.eqb_neq in Hrc. auto.
  - (* the constructor never terminates the program *)
    unfold Transaction_ctor, mbind in Hctor. rewrite execute_spec in Hctor.
    simpl in Hctor.
    destruct (fst (fst (sqlite3_exec E (db_ db) "BEGIN;" (snd s))) =? SQLITE_OK);
      discriminate.
Qed.

End BlockFacts.

(** On [Ledger], which accepts everything, the block goes through to the
    commit; the record shows every call the engine received, in order. *)
Lemma insert_players_commits_or_rolls_back_witness :
  insert_players LedgerLife 2 Demo.ledger_db (tt, []) =
    Some (Ok tt,
          (tt,
           [Ledger.Executed 1 "BEGIN;";
            Ledger.Prepared 1 "INSERT INTO players(name) VALUES(:name);" 1;
            Ledger.Bound 1 1 (VText "Alice");
            Ledger.Stepped 1;
            Ledger.Rewound 1;
            Ledger.Bound 1 1 (VText "Bob");
            Ledger.Stepped 1;
            Ledger.Executed 1 "COMMIT;";
            Ledger.Finalized 1])) /\
  exists wc stmt,
    fst (fst (sqlite3_exec LedgerEngine 1%nat "COMMIT;" wc)) = SQLITE_OK /\
    Statement_dtor LedgerLife stmt (tt, snd (sqlite3_exec LedgerEngine 1%nat "COMMIT;" wc))
      = Some (Ok tt,
              (tt,
               [Ledger.Executed 1 "BEGIN;";
                Ledger.Prepared 1 "INSERT INTO players(name) VALUES(:name);" 1;
                Ledger.Bound 1 1 (VText "Alice");
                Ledger.Stepped 1;
                Ledger.Rewound 1;
                Ledger.Bound 1 1 (VText "Bob");
                Ledger.Stepped 1;
                Ledger.Executed 1 "COMMIT;";
                Ledger.Finalized 1])).
Proof.
  assert (Hrun : insert_players LedgerLife 2 Demo.ledger_db (tt, []) =
    Some (Ok tt,
          (tt,
           [Ledger.Executed 1 "BEGIN;";
            Ledger.Prepared 1 "INSERT INTO players(name) VALUES(:name);" 1;
            Ledger.Bound 1 1 (VText "Alice");
            Ledger.Stepped 1;
            Ledger.Rewound 1;
            Ledger.Bound 1 1 (VText "Bob");
            Ledger.Stepped 1;
            Ledger.Executed 1 "COMMIT;";
            Ledger.Finalized 1]))) by reflexivity.
  split; [exact Hrun|].
  exact (proj2 (@insert_players_commits_or_rolls_back LedgerEngine LedgerLife unit
                  _ _ _ _ _ Hrun)).
Defined.

(** On [Mini], which has no table [players], the statement does not
    compile: the block raises the engine's message, the transaction it
    opened is rolled back, and the table is as before. *)
Example insert_players_rolls_back_on_mini :
  exists w',
    insert_players MiniLife 2 Run.db (tt, Run.two_rows) =
      Some (Throw (mkSQLiteException "syntax error"), (tt, w')) /\
    Mini.tbl w' = Mini.tbl Run.two_rows /\
    Mini.saved w' = None.
Proof. eexists. split; [reflexivity|]. split; reflexivity. Qed.

(* ------------------------------------------------------------------ *)
(** * The lifetime of a prepared statement *)

Section StatementFacts.

Variable E : Engine.
Variable R : Lifecycle E.
Variable L : Type.

(** X11: [prepare] hands the text to [sqlite3_prepare_v2] once.  When the
    answer is [SQLITE_OK], it returns the statement wrapping the handle the
    engine produced, and destroying that statement finalizes that handle,
    once, unless it is the null pointer, in which case nothing is released.
    When the answer is anything else, it raises the connection's message
    as it is after the call, and no statement exists to be finalized. *)
Theorem prepared_statement_is_finalized_once
    (db : Database E) (sql : string) (s s' : L * world E)
    (r : outcome (Statement E)) :
  Database_prepare db sql s = Some (r, s') ->
  let compiled := sqlite3_prepare_v2 E (db_ db) sql (snd s) in
  s' = (fst s, snd compiled) /\
  match r with
  | Ok stmt =>
      fst (fst compiled) = SQLITE_OK /\
      stmt_ stmt = snd (fst compiled) /\
      forall w',
        Statement_dtor R stmt (fst s, w') =
          Some (Ok tt,
                (fst s,
                 if is_null_stmt R (snd (fst compiled)) then w'
                 else snd (sqlite3_finalize R (snd (fst compiled)) w')))
  | Throw e =>
      fst (fst compiled) <> SQLITE_OK /\
      e = mkSQLiteException (sqlite3_errmsg E (db_ db) (snd compiled))
  | Terminate => False
  end.
Proof.
  unfold Database_prepare, Statement_ctor, mbind, call, peek, ret, throw. simpl.
  destruct (sqlite3_prepare_v2 E (db_ db) sql (snd s)) as [[rc st] w1]. simpl.
  destruct (rc =? SQLITE_OK) eqn:Hrc; simpl;
    intros H; inversion H; subst; simpl; (split; [reflexivity|]).
  - apply Z.eqb_eq in Hrc. repeat split; auto.
    intros w'. rewrite Statement_dtor_spec. reflexivity.
  - apply Z.eqb_neq in Hrc. auto.
Qed.

End StatementFacts.

(** On [Ledger]: a statement is compiled and destroyed; and the empty text
    compiles to the null statement, which is never finalized. *)
Lemma prepared_statement_is_finalized_once_witness :
  (exists stmt,
     Database_prepare Demo.ledger_db "SELECT 1" (tt, []) =
       Some (Ok stmt, (tt, [Ledger.Prepared 1 "SELECT 1" 1])) /\
     Statement_dtor LedgerLife stmt (tt, [Ledger.Prepared 1 "SELECT 1" 1]) =
       Some (Ok tt, (tt, [Ledger.Prepared 1 "SELECT 1" 1; Ledger.Finalized 1]))) /\
  (exists stmt,
     Database_prepare Demo.ledger_db "" (tt, []) =
       Some (Ok stmt, (tt, [Ledger.Prepared 1 "" 0])) /\
     Statement_dtor LedgerLife stmt (tt, [Ledger.Prepared 1 "" 0]) =
       Some (Ok tt, (tt, [Ledger.Prepared 1 "" 0]))).
Proof.
  split.
  - eexists.
    assert (Hp : Database_prepare Demo.ledger_db "SELECT 1" (tt, []) =
                 Some (Ok (mkStatement (E := LedgerEngine) 1%nat),
                       (tt, [Ledger.Prepared 1 "SELECT 1" 1]))) by reflexivity.
    split; [exact Hp|].
    destruct (@prepared_statement_is_finalized_once LedgerEngine LedgerLife unit
                _ _ _ _ _ Hp) as (_ & _ & _ & Hd).
    exact (Hd [Ledger.Prepared 1 "SELECT 1" 1]).
  - eexists.
    assert (Hp : Database_prepare Demo.ledger_db "" (tt, []) =
                 Some (Ok (mkStatement (E := LedgerEngine) 0%nat),
                       (tt, [Ledger.Prepared 1 "" 0]))) by reflexivity.
    split; [exact Hp|].
    destruct (@prepared_statement_is_finalized_once LedgerEngine LedgerLife unit
                _ _ _ _ _ Hp) as (_ & _ & _ & Hd).
    exact (Hd [Ledger.Prepared 1 "" 0]).
Defined.
